(** * PDFix: the per-file optimizer, the repair pipeline and the directory run

    A shallow embedding of [PDFix.py].  The three functions of the program
    ([optimize_pdfs], [optimize_pdf], [page_by_page_recovery]) are written as
    programs of a small exception-and-state monad over an explicit [World]:
    the file system, and the answers the PDF engine (PyMuPDF) gives to the
    calls the program makes.  Console output ([print]) is not modelled; it
    never influences control flow.  Paths follow [posixpath]. *)

From Stdlib Require Import Decimal Ascii String QArith.
From stdpp Require Import gmap strings list fin_maps.

Local Open Scope string_scope.
Local Open Scope N_scope.

(** ** Python strings *)

Module PyStr.

(** [str.lower] on the ASCII range; other bytes are left alone, which is what
    Python does for every character that could take part in the suffix
    [".pdf"]. *)
Definition lower_ascii (c : ascii) : ascii :=
  let n := N_of_ascii c in
  if (65 <=? n) && (n <=? 90) then ascii_of_N (n + 32) else c.

Fixpoint lower (s : string) : string :=
  match s with
  | EmptyString => EmptyString
  | String c r => String (lower_ascii c) (lower r)
  end.

(** [s.startswith(pre)] *)
Fixpoint startswith (pre s : string) : bool :=
  match pre, s with
  | EmptyString, _ => true
  | String a pre', String b s' => Ascii.eqb a b && startswith pre' s'
  | String _ _, EmptyString => false
  end.

(** [s.endswith(suf)]: some tail of [s] is [suf]. *)
Fixpoint endswith (suf s : string) : bool :=
  String.eqb s suf ||
  match s with
  | EmptyString => false
  | String _ r => endswith suf r
  end.

(** [needle in hay] *)
Fixpoint contains (needle hay : string) : bool :=
  startswith needle hay ||
  match hay with
  | EmptyString => false
  | String _ r => contains needle r
  end.

(** [str(n)] for a non-negative integer. *)
Fixpoint digits (d : uint) : string :=
  match d with
  | Nil => EmptyString
  | D0 d => String "0" (digits d)
  | D1 d => String "1" (digits d)
  | D2 d => String "2" (digits d)
  | D3 d => String "3" (digits d)
  | D4 d => String "4" (digits d)
  | D5 d => String "5" (digits d)
  | D6 d => String "6" (digits d)
  | D7 d => String "7" (digits d)
  | D8 d => String "8" (digits d)
  | D9 d => String "9" (digits d)
  end.

Definition str_of_N (n : N) : string := digits (N.to_uint n).

End PyStr.

(** ** [os.path] (POSIX flavour) *)

Module OsPath.
Import PyStr.

Definition is_sep (c : ascii) : bool := Ascii.eqb c "/".

Fixpoint has_sep (s : string) : bool :=
  match s with
  | EmptyString => false
  | String c r => is_sep c || has_sep r
  end.

(** [os.path.join(a, b)] *)
Definition join (a b : string) : string :=
  if startswith "/" b then b
  else if String.eqb a "" || endswith "/" a then a +:+ b
  else a +:+ "/" +:+ b.

(** [p[i:]] with [i = p.rfind('/') + 1] *)
Fixpoint basename (p : string) : string :=
  match p with
  | EmptyString => EmptyString
  | String c r =>
      if has_sep r then basename r
      else if is_sep c then r
      else p
  end.

(** [p[:i]] with [i = p.rfind('/') + 1] *)
Fixpoint head_part (p : string) : string :=
  match p with
  | EmptyString => EmptyString
  | String c r =>
      if has_sep r then String c (head_part r)
      else if is_sep c then "/"
      else EmptyString
  end.

Fixpoint all_sep (s : string) : bool :=
  match s with
  | EmptyString => true
  | String c r => is_sep c && all_sep r
  end.

Fixpoint rstrip_sep (s : string) : string :=
  match s with
  | EmptyString => EmptyString
  | String c r =>
      let r' := rstrip_sep r in
      if String.eqb r' "" && is_sep c then EmptyString else String c r'
  end.

(** [os.path.dirname(p)] *)
Definition dirname (p : string) : string :=
  let head := head_part p in
  if negb (String.eqb head "") && negb (all_sep head)
  then rstrip_sep head else head.

End OsPath.

(** ** Exceptions and the program monad *)

(** The exception classes the program can meet.  [OSError] stands for the
    class and its subclasses ([FileNotFoundError], [PermissionError],
    [FileExistsError]); every class below is a subclass of [Exception]. *)
Inductive ExnKind :=
  | OSError | ValueError | TypeError | UnboundLocalError | EngineError
  | PlainException.

Record Exn := mkExn { exn_kind : ExnKind; exn_msg : string }.

(** [str(e)] *)
Definition str_of_exn (e : Exn) : string := exn_msg e.

Definition is_OSError (e : Exn) : bool :=
  match exn_kind e with OSError => true | _ => false end.

Inductive Res (A : Type) :=
  | Ok (a : A)
  | Raise (e : Exn).
Arguments Ok {A} a.
Arguments Raise {A} e.

(** A computation over a state [S]: the state survives an exception, as the
    file system and the mutated dictionaries do in Python. *)
Definition M (S A : Type) : Type := S → Res A * S.

Definition ret {S A} (a : A) : M S A := λ s, (Ok a, s).

Definition bind {S A B} (m : M S A) (k : A → M S B) : M S B :=
  λ s, match m s with
       | (Ok a, s') => k a s'
       | (Raise e, s') => (Raise e, s')
       end.

Definition raise {S A} (e : Exn) : M S A := λ s, (Raise e, s).

Definition gets {S A} (f : S → A) : M S A := λ s, (Ok (f s), s).

Definition modify {S} (f : S → S) : M S unit := λ s, (Ok tt, f s).

(** [try: m  except Exception as e: h e] *)
Definition try_except {S A} (m : M S A) (h : Exn → M S A) : M S A :=
  λ s, match m s with
       | (Ok a, s') => (Ok a, s')
       | (Raise e, s') => h e s'
       end.

(** [try: m  except OSError as e: h e] *)
Definition try_except_OSError {S A} (m : M S A) (h : Exn → M S A) : M S A :=
  try_except m (λ e, if is_OSError e then h e else raise e).

(** [try: m  finally: fin]; an exception raised by [fin] replaces whatever
    [m] produced. *)
Definition try_finally {S A} (m : M S A) (fin : M S unit) : M S A :=
  λ s, match m s with
       | (r, s') =>
           match fin s' with
           | (Ok _, s'') => (r, s'')
           | (Raise e, s'') => (Raise e, s'')
           end
       end.

(** [try: m  except: pass] *)
Definition try_pass {S A} (m : M S A) : M S unit :=
  λ s, match m s with (_, s') => (Ok tt, s') end.

Declare Scope py_scope.
Delimit Scope py_scope with py.
Notation "'let*' x ':=' m 'in' k" := (bind m (λ x, k))
  (at level 10, x name, m at level 100, k at level 200) : py_scope.
Notation "m >> k" := (bind m (λ _, k))
  (at level 90, right associativity) : py_scope.
Local Open Scope py_scope.

(** ** The PDF engine's documents *)

(** What the engine sees in a file it manages to open. *)
Record DocData := mkDocData {
  dd_pages : list string;
  dd_is_pdf : bool;
  dd_is_encrypted : bool
}.

(** A [fitz.Document] handle. *)
Record Document := mkDocument {
  doc_data : DocData;
  doc_closed : bool
}.

Definition page_count (d : Document) : N := N.of_nat (length (dd_pages (doc_data d))).
Definition is_pdf (d : Document) : bool := dd_is_pdf (doc_data d).
Definition is_encrypted (d : Document) : bool := dd_is_encrypted (doc_data d).

(** Options of [Document.save]. *)
Record SaveOptions := mkSaveOptions {
  so_incremental : bool;
  so_garbage : N;
  so_deflate : bool;
  so_clean : bool
}.

(** What one call of [Document.save] does: it may write a file, and it may
    raise; a failing save can leave a file behind. *)
Record SaveAnswer := mkSaveAnswer {
  sa_written : option string;
  sa_raises : option Exn
}.

(** The calls made to the engine, in order. *)
Inductive Call :=
  | COpen (path : string)
  | CNew
  | CInsert (page : N)
  | CSave (path : string) (o : SaveOptions).

(** ** The world *)

Record World := mkWorld {
  fs : gmap string string;           (* path ↦ bytes of the file *)
  locked : gset string;              (* entries that cannot be written, replaced or removed *)
  unreadable : gset string;          (* files that exist but fail [os.access(_, R_OK)] *)
  disk_free : gmap string N;         (* directory ↦ free bytes of its volume *)
  pid : N;                           (* [os.getpid()] *)
  clock : N;                         (* [int(time.time())] *)
  tmp_names : list string;           (* names [tempfile] will pick, without suffix *)
  open_answers : list (Exn + DocData);   (* answers of [fitz.open(path)] *)
  save_answers : list SaveAnswer;        (* answers of [Document.save] *)
  insert_answers : list (option Exn);    (* answers of [Document.insert_pdf] *)
  engine_log : list Call
}.

Definition set_fs (f : gmap string string → gmap string string) (w : World) : World :=
  mkWorld (f (fs w)) (locked w) (unreadable w) (disk_free w) (pid w) (clock w)
          (tmp_names w) (open_answers w) (save_answers w) (insert_answers w)
          (engine_log w).

Definition set_tmp_names (l : list string) (w : World) : World :=
  mkWorld (fs w) (locked w) (unreadable w) (disk_free w) (pid w) (clock w)
          l (open_answers w) (save_answers w) (insert_answers w) (engine_log w).

Definition set_open_answers (l : list (Exn + DocData)) (w : World) : World :=
  mkWorld (fs w) (locked w) (unreadable w) (disk_free w) (pid w) (clock w)
          (tmp_names w) l (save_answers w) (insert_answers w) (engine_log w).

Definition set_save_answers (l : list SaveAnswer) (w : World) : World :=
  mkWorld (fs w) (locked w) (unreadable w) (disk_free w) (pid w) (clock w)
          (tmp_names w) (open_answers w) l (insert_answers w) (engine_log w).

Definition set_insert_answers (l : list (option Exn)) (w : World) : World :=
  mkWorld (fs w) (locked w) (unreadable w) (disk_free w) (pid w) (clock w)
          (tmp_names w) (open_answers w) (save_answers w) l (engine_log w).

Definition log_call (c : Call) (w : World) : World :=
  mkWorld (fs w) (locked w) (unreadable w) (disk_free w) (pid w) (clock w)
          (tmp_names w) (open_answers w) (save_answers w) (insert_answers w)
          (engine_log w ++ [c]).

(** A state that carries the world: the frames of the three functions. *)
Class HasWorld (S : Type) := {
  get_world : S → World;
  put_world : World → S → S
}.

#[export] Instance World_HasWorld : HasWorld World :=
  {| get_world := λ w, w; put_world := λ w _, w |}.

Definition liftW {S A} `{HasWorld S} (m : M World A) : M S A :=
  λ s, match m (get_world s) with (r, w') => (r, put_world w' s) end.

(** ** The file system *)

Module Os.

Definition size_of (bytes : string) : N := N.of_nat (String.length bytes).

Definition file_exists (p : string) (w : World) : bool :=
  bool_decide (is_Some (fs w !! p)).

(** [os.path.exists(p)] *)
Definition exists_ (p : string) : M World bool := gets (file_exists p).

Definition readable (p : string) (w : World) : bool :=
  file_exists p w && bool_decide (p ∉ unreadable w).

(** [os.access(p, os.R_OK)] *)
Definition access_R_OK (p : string) : M World bool := gets (readable p).

(** [os.path.getsize(p)] *)
Definition getsize (p : string) : M World N :=
  λ w, match fs w !! p with
       | Some bytes => (Ok (size_of bytes), w)
       | None => (Raise (mkExn OSError "No such file or directory"), w)
       end.

(** The entry [p] cannot be written, replaced or removed. *)
Definition entry_locked (p : string) (w : World) : bool :=
  bool_decide (p ∈ locked w).

(** [os.remove(p)], [os.unlink(p)] *)
Definition remove (p : string) : M World unit :=
  λ w, match fs w !! p with
       | None => (Raise (mkExn OSError "No such file or directory"), w)
       | Some _ =>
           if entry_locked p w
           then (Raise (mkExn OSError "Permission denied"), w)
           else (Ok tt, set_fs (delete p) w)
       end.

(** [shutil.move(src, dst)] and [os.replace(src, dst)] for a file [dst] on
    the volume of [src]: a rename. *)
Definition rename (src dst : string) : M World unit :=
  λ w, match fs w !! src with
       | None => (Raise (mkExn OSError "No such file or directory"), w)
       | Some bytes =>
           if entry_locked src w || entry_locked dst w
           then (Raise (mkExn OSError "Permission denied"), w)
           else (Ok tt, set_fs (λ m, <[dst := bytes]> (delete src m)) w)
       end.

(** [shutil.copy2(src, dst)] *)
Definition copy2 (src dst : string) : M World unit :=
  λ w, match fs w !! src with
       | None => (Raise (mkExn OSError "No such file or directory"), w)
       | Some bytes =>
           if bool_decide (src ∈ unreadable w) || entry_locked dst w
           then (Raise (mkExn OSError "Permission denied"), w)
           else (Ok tt, set_fs (<[dst := bytes]>) w)
       end.

(** [shutil.disk_usage(dir).free] *)
Definition disk_usage_free (dir : string) : M World N :=
  λ w, match disk_free w !! dir with
       | Some n => (Ok n, w)
       | None => (Raise (mkExn OSError "No such file or directory"), w)
       end.

(** [tempfile.NamedTemporaryFile(delete=False, suffix='.pdf')] followed by
    [close()]: an empty file under a name that was free; returns the name. *)
Definition named_temporary_file (suffix : string) : M World string :=
  λ w, match tmp_names w with
       | [] => (Raise (mkExn OSError "No usable temporary directory found"), w)
       | n :: rest =>
           let name := n +:+ suffix in
           let w1 := set_tmp_names rest w in
           if file_exists name w || entry_locked name w
           then (Raise (mkExn OSError "No usable temporary file name found"), w1)
           else (Ok name, set_fs (<[name := ""]>) w1)
       end.

End Os.

(** ** The PDF engine (PyMuPDF) *)

Module Fitz.

Definition closed_error : Exn := mkExn ValueError "document closed".

(** [fitz.open(path)] *)
Definition open (p : string) : M World Document :=
  λ w0, let w := log_call (COpen p) w0 in
        if negb (Os.file_exists p w)
        then (Raise (mkExn EngineError "no such file"), w)
        else match open_answers w with
             | [] => (Raise (mkExn EngineError "no answer from the engine"), w)
             | inl e :: rest => (Raise e, set_open_answers rest w)
             | inr d :: rest => (Ok (mkDocument d false), set_open_answers rest w)
             end.

(** [fitz.open()]: a new, empty PDF. *)
Definition open_new : M World Document :=
  λ w, (Ok (mkDocument (mkDocData [] true false) false), log_call CNew w).

(** [doc.close()]; closing twice raises. *)
Definition close {S} (d : Document) : M S Document :=
  if doc_closed d then raise closed_error
  else ret (mkDocument (doc_data d) true).

(** [bool(doc)]: a document has [__len__], its page count, which raises on a
    closed document. *)
Definition truthy {S} (d : Document) : M S bool :=
  if doc_closed d then raise closed_error
  else ret (0 <? page_count d).

(** [dst.insert_pdf(src, from_page=n, to_page=n)] *)
Definition insert_pdf (dst src : Document) (n : N) : M World Document :=
  λ w0, let w := log_call (CInsert n) w0 in
        if doc_closed dst || doc_closed src then (Raise closed_error, w)
        else match insert_answers w with
             | [] => (Raise (mkExn EngineError "no answer from the engine"), w)
             | Some e :: rest => (Raise e, set_insert_answers rest w)
             | None :: rest =>
                 let page := default "" (dd_pages (doc_data src) !! N.to_nat n) in
                 let data := mkDocData (dd_pages (doc_data dst) ++ [page])
                                       (dd_is_pdf (doc_data dst))
                                       (dd_is_encrypted (doc_data dst)) in
                 (Ok (mkDocument data (doc_closed dst)), set_insert_answers rest w)
             end.

(** [doc.save(path, incremental=.., garbage=.., deflate=.., clean=..)] *)
Definition save (d : Document) (p : string) (o : SaveOptions) : M World unit :=
  λ w0, let w := log_call (CSave p o) w0 in
        if doc_closed d then (Raise closed_error, w)
        else match save_answers w with
             | [] => (Raise (mkExn EngineError "no answer from the engine"), w)
             | a :: rest =>
                 let w1 := set_save_answers rest w in
                 match sa_written a with
                 | Some bytes =>
                     if Os.entry_locked p w
                     then (Raise (mkExn OSError "Permission denied"), w1)
                     else let w2 := set_fs (<[p := bytes]>) w1 in
                          match sa_raises a with
                          | Some e => (Raise e, w2)
                          | None => (Ok tt, w2)
                          end
                 | None =>
                     match sa_raises a with
                     | Some e => (Raise e, w1)
                     | None => (Ok tt, w1)
                     end
                 end
             end.

(** The defaults of [doc.save(path)]. *)
Definition default_save_options : SaveOptions := mkSaveOptions false 0 false false.

End Fitz.

(** ** Repair pipeline: [page_by_page_recovery] *)

(** The local variables of [page_by_page_recovery] that its handlers read:
    [temp_file] is unbound until line 362 has run, [src_doc] is [None] until
    line 369 has. *)
Record RecFrame := mkRecFrame {
  rf_world : World;
  rf_temp_file : option string;
  rf_src_doc : option Document
}.

#[export] Instance RecFrame_HasWorld : HasWorld RecFrame :=
  {| get_world := rf_world;
     put_world := λ w fr, mkRecFrame w (rf_temp_file fr) (rf_src_doc fr) |}.

Definition set_temp_file (t : string) : M RecFrame unit :=
  modify (λ fr, mkRecFrame (rf_world fr) (Some t) (rf_src_doc fr)).

Definition set_src_doc (d : option Document) : M RecFrame unit :=
  modify (λ fr, mkRecFrame (rf_world fr) (rf_temp_file fr) d).

(** Reading [temp_file.name]: an unbound local raises. *)
Definition temp_file_name : M RecFrame string :=
  λ fr, match rf_temp_file fr with
        | Some t => (Ok t, fr)
        | None =>
            (Raise (mkExn UnboundLocalError
                      "cannot access local variable 'temp_file' where it is not associated with a value"),
             fr)
        end.

(** [if src_doc: src_doc.close()] (lines 388-389 and 392-393) *)
Definition close_src_doc : M RecFrame unit :=
  let* src := gets rf_src_doc in
  match src with
  | None => ret tt
  | Some d =>
      let* b := Fitz.truthy d in
      if b then (let* d' := Fitz.close d in set_src_doc (Some d')) else ret tt
  end.

(** Lines 375-380: copy the pages one by one, skipping those that fail. *)
Fixpoint copy_pages (src new_doc : Document) (page_nums : list N) : M World Document :=
  match page_nums with
  | [] => ret new_doc
  | page_num :: rest =>
      let* new_doc' := try_except (Fitz.insert_pdf new_doc src page_num)
                                  (λ _, ret new_doc) in
      copy_pages src new_doc' rest
  end.

(** [range(n)] *)
Definition range (n : N) : list N := map N.of_nat (seq 0 (N.to_nat n)).

(** Lines 349-357: the direct open. *)
Definition direct_open (pdf_path : string) : M World (option Document) :=
  try_except
    (let* pdf_document := Fitz.open pdf_path in
     if is_pdf pdf_document && (0 <? page_count pdf_document)
     then ret (Some pdf_document)
     else Fitz.close pdf_document >> ret None)
    (λ _, ret None).

(** Lines 367-393: rebuild the document into [temp_file]. *)
Definition rebuild (pdf_path temp_name : string) : M RecFrame unit :=
  try_finally
    (try_except
       (let* src_doc := liftW (Fitz.open pdf_path) in
        set_src_doc (Some src_doc) >>
        let* new_doc := liftW Fitz.open_new in
        let* new_doc := liftW (copy_pages src_doc new_doc (range (page_count src_doc))) in
        liftW (Fitz.save new_doc temp_name Fitz.default_save_options) >>
        Fitz.close new_doc >> ret tt)
       (λ e, close_src_doc >> raise e))
    close_src_doc.

(** Lines 395-406: check the rebuilt file and put it in place of the
    original. *)
Definition install_repaired (pdf_path temp_name : string) : M RecFrame (option Document) :=
  let* repaired_doc := liftW (Fitz.open temp_name) in
  if 0 <? page_count repaired_doc then
    let temp_repaired := pdf_path +:+ ".repaired.pdf" in
    liftW (Os.copy2 temp_name temp_repaired) >>
    liftW (Os.rename temp_repaired pdf_path) >>
    Fitz.close repaired_doc >>
    let* reopened := liftW (Fitz.open pdf_path) in
    ret (Some reopened)
  else
    Fitz.close repaired_doc >> ret None.

(** Lines 410-416: the [finally] of the second [try]. *)
Definition cleanup_temp_file : M RecFrame unit :=
  let* name := temp_file_name in
  let* there := liftW (Os.exists_ name) in
  if there then try_pass (liftW (Os.remove name)) else ret tt.

(** Lines 360-418. *)
Definition reconstruct (pdf_path : string) : M RecFrame (option Document) :=
  try_finally
    (try_except
       (let* temp_name := liftW (Os.named_temporary_file ".pdf") in
        set_temp_file temp_name >>
        set_src_doc None >>
        rebuild pdf_path temp_name >>
        install_repaired pdf_path temp_name)
       (λ _, ret None))
    cleanup_temp_file.

(** Run a computation of the frame [S] inside a computation of the world,
    starting from the frame [init w]. *)
Definition with_frame {S A} `{HasWorld S} (init : World → S) (m : M S A) : M World (A * S) :=
  λ w, match m (init w) with
       | (Ok a, s) => (Ok (a, s), get_world s)
       | (Raise e, s) => (Raise e, get_world s)
       end.

Definition page_by_page_recovery (pdf_path : string) : M World (option Document) :=
  let* direct := direct_open pdf_path in
  match direct with
  | Some pdf_document => ret (Some pdf_document)
  | None =>
      let* r := with_frame (λ w, mkRecFrame w None None) (reconstruct pdf_path) in
      ret (fst r)
  end.

(** ** Single-file optimizer: [optimize_pdf] *)

(** The [params] dictionary. *)
Record Params := mkParams {
  garbage : N;
  deflate : bool;
  clean : bool
}.

(** The [result] dictionary. *)
Record FileOutcome := mkFileOutcome {
  success : bool;
  original_size : N;
  new_size : N;
  error : option string;
  repaired : bool
}.

(** The frame of [optimize_pdf]: [result] is mutated before an exception
    reaches the handler of line 263, and keeps what was written. *)
Record OptFrame := mkOptFrame {
  of_world : World;
  of_result : FileOutcome
}.

#[export] Instance OptFrame_HasWorld : HasWorld OptFrame :=
  {| get_world := of_world;
     put_world := λ w fr, mkOptFrame w (of_result fr) |}.

Definition set_result (f : FileOutcome → FileOutcome) : M OptFrame unit :=
  modify (λ fr, mkOptFrame (of_world fr) (f (of_result fr))).

Definition with_success (b : bool) (r : FileOutcome) : FileOutcome :=
  mkFileOutcome b (original_size r) (new_size r) (error r) (repaired r).
Definition with_new_size (n : N) (r : FileOutcome) : FileOutcome :=
  mkFileOutcome (success r) (original_size r) n (error r) (repaired r).
Definition with_error (msg : string) (r : FileOutcome) : FileOutcome :=
  mkFileOutcome (success r) (original_size r) (new_size r) (Some msg) (repaired r).
Definition with_repaired (b : bool) (r : FileOutcome) : FileOutcome :=
  mkFileOutcome (success r) (original_size r) (new_size r) (error r) b.

(** Lines 162-168. *)
Definition initial_result (original_size : N) : FileOutcome :=
  mkFileOutcome false original_size original_size None false.

(** Lines 171-173. *)
Definition temp_filename_for (pdf_path : string) (w : World) : string :=
  ".temp_opt_" +:+ OsPath.basename pdf_path +:+ "_" +:+ PyStr.str_of_N (pid w)
  +:+ "_" +:+ PyStr.str_of_N (clock w) +:+ ".pdf".

Definition temp_path_for (pdf_path : string) (w : World) : string :=
  OsPath.join (OsPath.dirname pdf_path) (temp_filename_for pdf_path w).

(** A call of [page_by_page_recovery] with positional arguments: the function is declared with the
    single parameter [pdf_path] (line 339), and Python checks the number of
    positional arguments when the call is made. *)
Definition call_page_by_page_recovery (args : list string) : M World (option Document) :=
  match args with
  | [pdf_path] => page_by_page_recovery pdf_path
  | [] =>
      raise (mkExn TypeError
               "page_by_page_recovery() missing 1 required positional argument: 'pdf_path'")
  | _ =>
      raise (mkExn TypeError
               ("page_by_page_recovery() takes 1 positional argument but "
                +:+ PyStr.str_of_N (N.of_nat (length args)) +:+ " were given"))
  end.

(** [bool(x)] for [x] a document or [None]. *)
Definition truthy_opt {S} (x : option Document) : M S bool :=
  match x with
  | None => ret false
  | Some d => Fitz.truthy d
  end.

(** Lines 177-188. *)
Definition open_document (pdf_path : string) (repair_mode : bool) : M OptFrame Document :=
  try_except
    (liftW (Fitz.open pdf_path))
    (λ e,
       if negb repair_mode then raise e
       else
         set_result (with_repaired true) >>
         let* pdf_document := liftW (call_page_by_page_recovery [pdf_path]) in
         let* usable := truthy_opt pdf_document in
         match pdf_document with
         | Some d => if usable then ret d
                     else raise (mkExn PlainException "PDF repair failed")
         | None => raise (mkExn PlainException "PDF repair failed")
         end).

(** Lines 201-233; returns the handle, which the last resort has closed. *)
Definition save_document (pdf_path temp : string) (params : Params) (repair_mode : bool)
    (pdf_document : Document) : M OptFrame Document :=
  try_except
    (liftW (Fitz.save pdf_document temp
              (mkSaveOptions false (garbage params) (deflate params) (clean params))) >>
     ret pdf_document)
    (λ save_error,
       if negb repair_mode then raise save_error
       else
         try_except
           (liftW (Fitz.save pdf_document temp (mkSaveOptions true 1 true false)) >>
            set_result (with_repaired true) >>
            ret pdf_document)
           (λ _,
              let* closed := Fitz.close pdf_document in
              let* rebuilt := liftW (call_page_by_page_recovery [pdf_path; temp]) in
              let* ok := truthy_opt rebuilt in
              if ok then set_result (with_repaired true) >> ret closed
              else raise (mkExn PlainException
                            "Could not repair PDF even with page-by-page method"))).

(** Lines 245-261: the size gate. *)
Definition commit (pdf_path temp : string) (original_size : N) : M OptFrame unit :=
  let* new_size := liftW (Os.getsize temp) in
  if new_size <? original_size then
    try_except
      (liftW (Os.rename temp pdf_path) >>
       set_result (with_success true) >>
       set_result (with_new_size new_size))
      (λ e, raise (mkExn PlainException
                     ("Failed to replace original file: " +:+ str_of_exn e)))
  else
    liftW (Os.remove temp) >>
    set_result (with_success true).

(** Lines 176-243: everything up to the size gate.  [true] when the size
    gate is to run, [false] after the [return result] of line 195. *)
Definition prepare (pdf_path temp : string) (params : Params) (repair_mode : bool)
    : M OptFrame bool :=
  let* pdf_document := open_document pdf_path repair_mode in
  if is_encrypted pdf_document then
    Fitz.close pdf_document >>
    set_result (with_error "PDF is encrypted") >>
    ret false
  else
    let* pdf_document := save_document pdf_path temp params repair_mode pdf_document in
    try_pass (Fitz.close pdf_document) >>
    let* there := liftW (Os.exists_ temp) in
    if negb there then
      raise (mkExn PlainException
               ("Temporary optimized file was not created: " +:+ temp))
    else ret true.

(** Lines 176-261: the body of the [try]. *)
Definition try_body (pdf_path temp : string) (params : Params) (repair_mode : bool)
    (original_size : N) : M OptFrame unit :=
  let* go_on := prepare pdf_path temp params repair_mode in
  if go_on then commit pdf_path temp original_size else ret tt.

(** Lines 263-279: the handler. *)
Definition on_error (temp : string) (e : Exn) : M OptFrame unit :=
  set_result (with_error (str_of_exn e)) >>
  try_except
    (let* there := liftW (Os.exists_ temp) in
     if there then liftW (Os.remove temp) else ret tt)
    (λ _, ret tt).

Definition optimize_pdf (pdf_path : string) (params : Params) (repair_mode : bool)
    : M World FileOutcome :=
  let* original_size := Os.getsize pdf_path in
  let* temp := gets (temp_path_for pdf_path) in
  let* r := with_frame (λ w, mkOptFrame w (initial_result original_size))
              (try_except (try_body pdf_path temp params repair_mode original_size)
                          (on_error temp)) in
  ret (of_result (snd r)).

(** ** Directory optimizer: [optimize_pdfs] *)

(** The [stats] dictionary, without its time stamps. *)
Record Stats := mkStats {
  total_files : N;
  optimized_files : N;
  skipped_files : N;
  failed_files : N;
  repaired_files : N;
  original_size_bytes : N;
  optimized_size_bytes : N
}.

Definition initial_stats : Stats := mkStats 0 0 0 0 0 0 0.

Definition incr_total (s : Stats) : Stats :=
  mkStats (total_files s + 1) (optimized_files s) (skipped_files s) (failed_files s)
          (repaired_files s) (original_size_bytes s) (optimized_size_bytes s).
Definition incr_optimized (s : Stats) : Stats :=
  mkStats (total_files s) (optimized_files s + 1) (skipped_files s) (failed_files s)
          (repaired_files s) (original_size_bytes s) (optimized_size_bytes s).
Definition incr_skipped (s : Stats) : Stats :=
  mkStats (total_files s) (optimized_files s) (skipped_files s + 1) (failed_files s)
          (repaired_files s) (original_size_bytes s) (optimized_size_bytes s).
Definition incr_failed (s : Stats) : Stats :=
  mkStats (total_files s) (optimized_files s) (skipped_files s) (failed_files s + 1)
          (repaired_files s) (original_size_bytes s) (optimized_size_bytes s).
Definition incr_repaired (s : Stats) : Stats :=
  mkStats (total_files s) (optimized_files s) (skipped_files s) (failed_files s)
          (repaired_files s + 1) (original_size_bytes s) (optimized_size_bytes s).
Definition add_original (n : N) (s : Stats) : Stats :=
  mkStats (total_files s) (optimized_files s) (skipped_files s) (failed_files s)
          (repaired_files s) (original_size_bytes s + n) (optimized_size_bytes s).
Definition add_optimized (n : N) (s : Stats) : Stats :=
  mkStats (total_files s) (optimized_files s) (skipped_files s) (failed_files s)
          (repaired_files s) (original_size_bytes s) (optimized_size_bytes s + n).

(** The arguments of [optimize_pdfs] after [directory].  The threshold is a
    Python float; it is kept as an exact rational. *)
Record Options := mkOptions {
  compression_level : Z;
  backup : bool;
  size_threshold_mb : option Q;
  repair_mode : bool
}.

(** Lines 36-42. *)
Definition compression_params (level : Z) : option Params :=
  if Z.eqb level 0 then Some (mkParams 1 true true)
  else if Z.eqb level 1 then Some (mkParams 3 true true)
  else if Z.eqb level 2 then Some (mkParams 4 true true)
  else None.

Definition params_for (level : Z) : Params :=
  default (mkParams 3 true true) (compression_params level).

(** Line 72: [file_size / (1024 * 1024)]. *)
Definition size_mb (file_size : N) : Q := Qmake (Z.of_N file_size) 1048576.

Definition Qlt_bool (a b : Q) : bool := negb (Qle_bool b a).

(** Line 80: [size_threshold_mb and file_size_mb < size_threshold_mb]. *)
Definition below_threshold (threshold : option Q) (file_size : N) : bool :=
  match threshold with
  | None => false
  | Some t => negb (Qeq_bool t 0) && Qlt_bool (size_mb file_size) t
  end.

(** The frame of the loop: the world, [stats] and [processed_files]. *)
Record LoopFrame := mkLoopFrame {
  lf_world : World;
  lf_stats : Stats;
  lf_processed : gset string
}.

#[export] Instance LoopFrame_HasWorld : HasWorld LoopFrame :=
  {| get_world := lf_world;
     put_world := λ w fr, mkLoopFrame w (lf_stats fr) (lf_processed fr) |}.

Definition update_stats (f : Stats → Stats) : M LoopFrame unit :=
  modify (λ fr, mkLoopFrame (lf_world fr) (f (lf_stats fr)) (lf_processed fr)).

Definition mark_processed (p : string) : M LoopFrame unit :=
  modify (λ fr, mkLoopFrame (lf_world fr) (lf_stats fr) ({[p]} ∪ lf_processed fr)).

(** Lines 106-125: run the optimizer and book its outcome. *)
Definition optimize_and_book (pdf_path : string) (params : Params) (o : Options)
    : M LoopFrame unit :=
  let* result := liftW (optimize_pdf pdf_path params (repair_mode o)) in
  if success result then
    update_stats incr_optimized >>
    update_stats (add_optimized (new_size result)) >>
    (if repaired result then update_stats incr_repaired else ret tt)
  else
    update_stats incr_failed >>
    update_stats (add_optimized (original_size result)).

(** Lines 86-95: [true] when the file is skipped for lack of space. *)
Definition disk_space_check (pdf_path : string) (file_size : N) : M LoopFrame bool :=
  try_except
    (let* free := liftW (Os.disk_usage_free (OsPath.dirname pdf_path)) in
     if free <? file_size * 2 then
       update_stats incr_skipped >>
       update_stats (add_optimized file_size) >>
       ret true
     else ret false)
    (λ _, ret false).

(** Lines 98-103. *)
Definition make_backup (pdf_path : string) (o : Options) : M LoopFrame unit :=
  if backup o then
    try_except (liftW (Os.copy2 pdf_path (pdf_path +:+ ".backup"))) (λ _, ret tt)
  else ret tt.

(** Lines 70-77: [None] stands for the [continue] of line 77. *)
Definition read_size (pdf_path : string) : M LoopFrame (option N) :=
  try_except_OSError
    (let* file_size := liftW (Os.getsize pdf_path) in
     update_stats (add_original file_size) >>
     ret (Some file_size))
    (λ _, update_stats incr_failed >> ret None).

(** Lines 62-135: the [try] of the loop body and its handler. *)
Definition process_file (pdf_path : string) (params : Params) (o : Options)
    : M LoopFrame unit :=
  try_except
    (let* there := liftW (Os.exists_ pdf_path) in
     let* readable := liftW (Os.access_R_OK pdf_path) in
     if negb there || negb readable then update_stats incr_failed
     else
       let* size := read_size pdf_path in
       match size with
       | None => ret tt
       | Some file_size =>
           if below_threshold (size_threshold_mb o) file_size then
             update_stats incr_skipped >>
             update_stats (add_optimized file_size)
           else
             let* skipped := disk_space_check pdf_path file_size in
             if skipped then ret tt
             else
               make_backup pdf_path o >>
               optimize_and_book pdf_path params o
       end)
    (λ _,
       update_stats incr_failed >>
       try_pass
         (let* there := liftW (Os.exists_ pdf_path) in
          if there then
            let* file_size := liftW (Os.getsize pdf_path) in
            update_stats (add_optimized file_size)
          else ret tt)).

(** Line 50. *)
Definition is_pdf_name (file : string) : bool :=
  PyStr.endswith ".pdf" (PyStr.lower file).

(** Line 56, right operand. *)
Definition looks_temporary (pdf_path : string) : bool :=
  PyStr.contains ".temp_optimized.pdf" pdf_path.

(** Lines 49-135: one turn of the inner loop. *)
Definition visit_file (params : Params) (o : Options) (root file : string)
    : M LoopFrame unit :=
  if negb (is_pdf_name file) then ret tt
  else
    let pdf_path := OsPath.join root file in
    let* processed := gets lf_processed in
    if bool_decide (pdf_path ∈ processed) || looks_temporary pdf_path then ret tt
    else
      mark_processed pdf_path >>
      update_stats incr_total >>
      process_file pdf_path params o.

Fixpoint for_each {S A} (f : A → M S unit) (l : list A) : M S unit :=
  match l with
  | [] => ret tt
  | x :: rest => f x >> for_each f rest
  end.

(** Lines 140-144, as an exact rational. *)
Definition overall_reduction_percent (s : Stats) : Q :=
  if 0 <? original_size_bytes s then
    ((inject_Z (Z.of_N (original_size_bytes s) - Z.of_N (optimized_size_bytes s))
      / inject_Z (Z.of_N (original_size_bytes s))) * inject_Z 100)%Q
  else 0%Q.

(** [optimize_pdfs]; [walk] is what [os.walk(directory)] yields: each
    directory of the tree with the names of the files in it. *)
Definition optimize_pdfs (walk : list (string * list string)) (o : Options)
    : M World Stats :=
  let params := params_for (compression_level o) in
  let* r := with_frame (λ w, mkLoopFrame w initial_stats ∅)
              (for_each (λ entry, for_each (visit_file params o (fst entry)) (snd entry))
                        walk) in
  ret (lf_stats (snd r)).

(** ** Vocabulary of the properties *)

(** [m] relates every state it starts in to the state it ends in by [R],
    whether it returns or raises. *)
Definition preserves {S A} (R : relation S) (m : M S A) : Prop :=
  ∀ s r s', m s = (r, s') → R s s'.

(** [m] always returns. *)
Definition never_raises {S A} (m : M S A) : Prop :=
  ∀ s, ∃ a s', m s = (Ok a, s').

(** The classification invariant of the run statistics. *)
Definition classified (s : Stats) : Prop :=
  total_files s = optimized_files s + skipped_files s + failed_files s.

(** Exactly one of the three class counters went up, by one. *)
Definition counted_once (s s' : Stats) : Prop :=
  total_files s' = total_files s ∧
  ( (optimized_files s' = optimized_files s + 1 ∧ skipped_files s' = skipped_files s
       ∧ failed_files s' = failed_files s)
  ∨ (optimized_files s' = optimized_files s ∧ skipped_files s' = skipped_files s + 1
       ∧ failed_files s' = failed_files s)
  ∨ (optimized_files s' = optimized_files s ∧ skipped_files s' = skipped_files s
       ∧ failed_files s' = failed_files s + 1)).

(** None of the class counters moved. *)
Definition same_counts (s s' : Stats) : Prop :=
  total_files s' = total_files s ∧ optimized_files s' = optimized_files s ∧
  skipped_files s' = skipped_files s ∧ failed_files s' = failed_files s.

(** ** Example worlds *)

Module Examples.

Definition two_pages : DocData := mkDocData ["page 1"; "page 2"] true false.
Definition encrypted_doc : DocData := mkDocData ["page 1"] true true.
Definition broken : Exn := mkExn EngineError "cannot open broken document".
Definition save_failed : Exn := mkExn EngineError "cannot save the document".

Definition medium : Options := mkOptions 1 false None false.

(** A directory [/d] with one ten-byte file, and an engine that answers
    the calls with [opens] and [saves]. *)
Definition world_with (opens : list (Exn + DocData)) (saves : list SaveAnswer) : World :=
  mkWorld {[ "/d/a.pdf" := "0123456789" ]} ∅ ∅ {[ "/d" := 1000000 ]} 7 42
          ["/tmp/tmpk3x9"] opens saves [None; None] [].

Definition lock (p : string) (w : World) : World :=
  mkWorld (fs w) ({[p]} ∪ locked w) (unreadable w) (disk_free w) (pid w) (clock w)
          (tmp_names w) (open_answers w) (save_answers w) (insert_answers w)
          (engine_log w).

(** A tree that still holds a temporary file of an earlier run on
    [/d/a.pdf] (process 7, time 42) and nothing else. *)
Definition leftover_name : string :=
  temp_filename_for "/d/a.pdf" (world_with [] []).

Definition leftover_world : World :=
  mkWorld {[ OsPath.join "/d" leftover_name := "%PDF-1.7 partial" ]} ∅ ∅
          {[ "/d" := 1000000 ]} 8 50 ["/tmp/tmpk3x9"] [inl broken] [] [] [].

(** A world in which the standard save writes five bytes, and the same
    world when [optimize_pdf] reaches its size gate. *)
Definition shrinking_world : World :=
  world_with [inr two_pages] [mkSaveAnswer (Some "01234") None].

Definition shrinking_world_at_gate : World :=
  mkWorld (<[ "/d/.temp_opt_a.pdf_7_42.pdf" := "01234" ]> {[ "/d/a.pdf" := "0123456789" ]})
          ∅ ∅ {[ "/d" := 1000000 ]} 7 42 ["/tmp/tmpk3x9"] [] [] [None; None]
          [COpen "/d/a.pdf";
           CSave "/d/.temp_opt_a.pdf_7_42.pdf" (mkSaveOptions false 3 true true)].

(** A world in which the direct open fails twice and the engine then
    manages to read the file: the repair pipeline rebuilds it as sixteen
    bytes, and the optimizer's own save writes eighteen. *)
Definition repairing_world : World :=
  world_with [inl broken; inl broken; inr two_pages; inr two_pages; inr two_pages]
             [mkSaveAnswer (Some "0123456789ABCDEF") None;
              mkSaveAnswer (Some "0123456789ABCDEFGH") None].

(** A size threshold of five megabytes. *)
Definition above_5mb : Options := mkOptions 1 false (Some (5 # 1)%Q) false.

End Examples.

(** The file at [p] is the same before and after. *)
Definition keeps_file_w (p : string) : relation World :=
  λ w w', fs w' !! p = fs w !! p.

Definition keeps_file (p : string) : relation OptFrame :=
  λ fr fr', keeps_file_w p (of_world fr) (of_world fr').

(** The verdict fields of [result] are the same before and after. *)
Definition same_verdict : relation OptFrame :=
  λ fr fr', success (of_result fr') = success (of_result fr)
            ∧ original_size (of_result fr') = original_size (of_result fr)
            ∧ new_size (of_result fr') = new_size (of_result fr).

(** The direct open of line 178 succeeds, or repair mode is off: the cases
    in which [optimize_pdf] does not enter the repair pipeline. *)
Definition repair_not_entered (rm : bool) (w : World) : Prop :=
  rm = false ∨ ∃ d rest, open_answers w = inr d :: rest.

(** The file at [p] was kept, or replaced by strictly fewer bytes. *)
Definition kept_or_smaller (p : string) (w w' : World) : Prop :=
  fs w' !! p = fs w !! p
  ∨ ∃ old new, fs w !! p = Some old ∧ fs w' !! p = Some new
               ∧ (Os.size_of new < Os.size_of old)%N.

(** The disk-space check of lines 87-95 lets a file of [file_size] bytes at
    [p] through: enough room, or the query itself fails. *)
Definition passes_disk_check (p : string) (file_size : N) (w : World) : bool :=
  match disk_free w !! OsPath.dirname p with
  | Some free => negb (free <? file_size * 2)
  | None => true
  end.

(** The local [temp_file] of the repair pipeline is the same before and
    after. *)
Definition keeps_temp_file : relation RecFrame :=
  λ fr fr', rf_temp_file fr' = rf_temp_file fr.

(** ** Vocabulary of the properties of a whole run *)

(** One turn of the loop added [a] bytes to the original total and [b <= a]
    to the optimized total, and counted a repair only with an optimized
    file. *)
Definition books (s s' : Stats) : Prop :=
  ∃ a b o r,
    (b <= a)%N ∧ (r <= o)%N
    ∧ original_size_bytes s' = original_size_bytes s + a
    ∧ optimized_size_bytes s' = optimized_size_bytes s + b
    ∧ optimized_files s' = optimized_files s + o
    ∧ repaired_files s' = repaired_files s + r.

Definition sound_totals (s : Stats) : Prop :=
  (repaired_files s <= optimized_files s)%N
  ∧ (optimized_size_bytes s <= original_size_bytes s)%N.

(** The paths of one directory of the walk that pass the tests of lines 50
    and 56, and those of a whole walk. *)
Definition candidates_in (root : string) (files : list string) : gset string :=
  list_to_set
    (List.filter (λ path, negb (looks_temporary path))
       (map (OsPath.join root) (List.filter is_pdf_name files))).

Fixpoint candidate_paths (walk : list (string * list string)) : gset string :=
  match walk with
  | [] => ∅
  | entry :: rest => candidates_in (fst entry) (snd entry) ∪ candidate_paths rest
  end.

(** The loop keeps [total_files] equal to the number of processed paths. *)
Definition counts_processed (fr : LoopFrame) : Prop :=
  total_files (lf_stats fr) = N.of_nat (size (lf_processed fr)).

(** The locks of the file system are the same before and after. *)
Definition same_locks : relation World :=
  λ w w', locked w' = locked w.

Definition same_locks_frame : relation OptFrame :=
  λ fr fr', same_locks (of_world fr) (of_world fr').

(** If there was a file at [p] before, there is one after. *)
Definition still_there (p : string) : relation World :=
  λ w w', is_Some (fs w !! p) → is_Some (fs w' !! p).

Definition still_there_frame (p : string) : relation OptFrame :=
  λ fr fr', still_there p (of_world fr) (of_world fr').

(** The same inside the repair pipeline, where [temp_file] also stays what
    it is. *)
Definition still_there_rec (p : string) : relation RecFrame :=
  λ fr fr', rf_temp_file fr' = rf_temp_file fr
            ∧ still_there p (rf_world fr) (rf_world fr').

(** The [error] field of [result] is the same before and after. *)
Definition same_error : relation OptFrame :=
  λ fr fr', error (of_result fr') = error (of_result fr).

(** A [result] as a caller may read it: an error message exactly when it is
    not a success, a new size that is not larger than the original size, and
    both sizes equal unless it is a success. *)
Definition consistent_outcome (out : FileOutcome) : Prop :=
  (success out = true ↔ error out = None)
  ∧ (new_size out <= original_size out)%N
  ∧ (success out = false → new_size out = original_size out).

(** ** More example worlds *)

Module MoreExamples.

(** Two files in [/d]; the engine opens the first and saves five bytes. *)
Definition two_files : World :=
  mkWorld (<[ "/d/b.pdf" := "another file" ]> {[ "/d/a.pdf" := "0123456789" ]})
          ∅ ∅ {[ "/d" := 1000000 ]} 7 42 ["/tmp/tmpk3x9"]
          [inr Examples.two_pages] [mkSaveAnswer (Some "01234") None] [None; None] [].

(** Backups on, medium compression, no threshold, no repair. *)
Definition with_backup : Options := mkOptions 1 true None false.

(** A stale backup of an earlier run sits beside the file. *)
Definition stale_backup : World :=
  mkWorld (<[ "/d/a.pdf.backup" := "stale" ]> {[ "/d/a.pdf" := "0123456789" ]})
          ∅ ∅ {[ "/d" := 1000000 ]} 7 42 ["/tmp/tmpk3x9"]
          [inr Examples.two_pages] [mkSaveAnswer (Some "01234") None] [None; None] [].

End MoreExamples.

(** * Properties *)

(** ** Sanity checks of the string and path functions *)

Example lower_pdf : PyStr.lower "Report.PDF" = "report.pdf".
Proof. reflexivity. Qed.

Example join_plain : OsPath.join "/data/in" "a.pdf" = "/data/in/a.pdf".
Proof. reflexivity. Qed.

Example join_trailing_sep : OsPath.join "/data/in/" "a.pdf" = "/data/in/a.pdf".
Proof. reflexivity. Qed.

Example dirname_plain : OsPath.dirname "/data/in/a.pdf" = "/data/in".
Proof. reflexivity. Qed.

Example dirname_root : OsPath.dirname "/a.pdf" = "/".
Proof. reflexivity. Qed.

Example basename_plain : OsPath.basename "/data/in/a.pdf" = "a.pdf".
Proof. reflexivity. Qed.

Example str_of_N_ex : PyStr.str_of_N 1700000000 = "1700000000".
Proof. reflexivity. Qed.

Example temp_path_ex :
  temp_path_for "/d/a.pdf" (Examples.world_with [] []) = "/d/.temp_opt_a.pdf_7_42.pdf".
Proof. reflexivity. Qed.

Example mixed_case_is_candidate : is_pdf_name "Scan.PdF" = true.
Proof. reflexivity. Qed.

Example backup_is_no_candidate : is_pdf_name "a.pdf.backup" = false.
Proof. reflexivity. Qed.

Example medium_is_the_default : params_for 7 = mkParams 3 true true.
Proof. reflexivity. Qed.

(** ** Strings and paths *)

Section Strings.
Import PyStr OsPath.

Lemma length_append (a b : string) :
  String.length (a +:+ b) = (String.length a + String.length b)%nat.
Proof. induction a as [|c a IH]; simpl; [reflexivity | now rewrite IH]. Qed.

Lemma append_cons (x : ascii) (a b : string) :
  String x a +:+ b = String x (a +:+ b).
Proof. reflexivity. Qed.

Lemma append_assoc (a b c : string) : (a +:+ b) +:+ c = a +:+ b +:+ c.
Proof.
  induction a as [|x a IH]; [reflexivity|].
  now rewrite !append_cons, IH.
Qed.

(** [endswith] is the suffix relation. *)
Lemma endswith_spec (suf s : string) :
  endswith suf s = true ↔ ∃ pre, s = pre +:+ suf.
Proof.
  induction s as [|c s IH]; cbn [endswith].
  - rewrite orb_false_r, String.eqb_eq. split.
    + intros <-. now exists "".
    + intros [pre Hpre]. destruct pre; simpl in Hpre; [easy | discriminate].
  - rewrite orb_true_iff, String.eqb_eq, IH. split.
    + intros [<- | [pre ->]]; [now exists "" | now exists (String c pre)].
    + intros [pre Hpre]. destruct pre as [|c' pre]; simpl in Hpre.
      * now left.
      * right. exists pre. now inversion Hpre.
Qed.

Lemma has_sep_app (a b : string) : has_sep (a +:+ b) = has_sep a || has_sep b.
Proof.
  induction a as [|c a IH]; simpl; [reflexivity|].
  now rewrite IH, orb_assoc.
Qed.

Lemma digits_no_sep (d : uint) : has_sep (digits d) = false.
Proof. induction d; simpl; auto. Qed.

Lemma basename_no_sep (p : string) : has_sep (basename p) = false.
Proof.
  induction p as [|c p IH]; simpl; [reflexivity|].
  destruct (has_sep p) eqn:Hp; [exact IH|].
  destruct (is_sep c) eqn:Hc; [exact Hp|].
  simpl. now rewrite Hc, Hp.
Qed.

Lemma basename_id (n : string) : has_sep n = false → basename n = n.
Proof.
  destruct n as [|c n]; simpl; [reflexivity|].
  intros [Hc Hn]%orb_false_iff. now rewrite Hn, Hc.
Qed.

Lemma basename_after_sep (a n : string) :
  has_sep n = false → basename (a +:+ "/" +:+ n) = n.
Proof.
  intros Hn. induction a as [|c a IH].
  - change (basename (String "/" n) = n). cbn [basename]. now rewrite Hn.
  - change (basename (String c (a +:+ "/" +:+ n)) = n). cbn [basename].
    rewrite has_sep_app. cbn [has_sep append]. rewrite orb_true_r. exact IH.
Qed.

Lemma startswith_sep (n : string) : has_sep n = false → startswith "/" n = false.
Proof.
  destruct n as [|c n]; [reflexivity|]. cbn [has_sep startswith].
  intros [Hc _]%orb_false_iff. unfold is_sep in Hc.
  rewrite Ascii.eqb_sym, Hc. reflexivity.
Qed.

(** The last component of [join d n] is [n] when [n] is a plain name. *)
Lemma basename_join (d n : string) :
  has_sep n = false → basename (join d n) = n.
Proof.
  intros Hn. unfold join. rewrite (startswith_sep n Hn).
  destruct (String.eqb d "") eqn:Hd; cbn [orb].
  - apply String.eqb_eq in Hd as ->. now apply basename_id.
  - destruct (endswith "/" d) eqn:He.
    + apply endswith_spec in He as [pre ->].
      rewrite append_assoc. now apply basename_after_sep.
    + now apply basename_after_sep.
Qed.

Lemma temp_filename_no_sep (p : string) (w : World) :
  has_sep (temp_filename_for p w) = false.
Proof.
  unfold temp_filename_for, str_of_N.
  rewrite !has_sep_app, basename_no_sep, !digits_no_sep. reflexivity.
Qed.

(** The temporary file of [optimize_pdf] never is the file it optimizes. *)
Lemma temp_path_ne (p : string) (w : World) : temp_path_for p w ≠ p.
Proof.
  intros Heq.
  assert (Hb : basename (temp_path_for p w) = temp_filename_for p w)
    by (apply basename_join, temp_filename_no_sep).
  rewrite Heq in Hb.
  apply (f_equal String.length) in Hb.
  unfold temp_filename_for in Hb. rewrite !length_append in Hb. simpl in Hb. lia.
Qed.

Lemma append_suffix_ne (p suffix : string) : suffix ≠ "" → p +:+ suffix ≠ p.
Proof.
  intros Hs Heq. apply (f_equal String.length) in Heq.
  rewrite length_append in Heq. destruct suffix; [easy | simpl in Heq; lia].
Qed.

End Strings.

(** ** The monad *)

Section MonadFacts.
Context {S : Type} (R : relation S) `{!PreOrder R}.

Lemma preserves_ret {A} (a : A) : preserves R (ret a).
Proof. intros s r s' [= _ <-]. reflexivity. Qed.

Lemma preserves_raise {A} (e : Exn) : preserves R (raise (A:=A) e).
Proof. intros s r s' [= _ <-]. reflexivity. Qed.

Lemma preserves_gets {A} (f : S → A) : preserves R (gets f).
Proof. intros s r s' [= _ <-]. reflexivity. Qed.

Lemma preserves_modify (f : S → S) : (∀ s, R s (f s)) → preserves R (modify f).
Proof. intros Hf s r s' [= _ <-]. apply Hf. Qed.

Lemma preserves_bind {A B} (m : M S A) (k : A → M S B) :
  preserves R m → (∀ a, preserves R (k a)) → preserves R (bind m k).
Proof.
  intros Hm Hk s r s'. unfold bind.
  destruct (m s) as [[a|e] s1] eqn:Em; intros H.
  - transitivity s1; [eapply Hm, Em | eapply Hk, H].
  - injection H as _ <-. eapply Hm, Em.
Qed.

Lemma preserves_try_except {A} (m : M S A) (h : Exn → M S A) :
  preserves R m → (∀ e, preserves R (h e)) → preserves R (try_except m h).
Proof.
  intros Hm Hh s r s'. unfold try_except.
  destruct (m s) as [[a|e] s1] eqn:Em; intros H.
  - injection H as _ <-. eapply Hm, Em.
  - transitivity s1; [eapply Hm, Em | eapply Hh, H].
Qed.

Lemma preserves_try_finally {A} (m : M S A) (fin : M S unit) :
  preserves R m → preserves R fin → preserves R (try_finally m fin).
Proof.
  intros Hm Hf s r s'. unfold try_finally.
  destruct (m s) as [r1 s1] eqn:Em.
  destruct (fin s1) as [[[]|e] s2] eqn:Ef; intros [= _ <-];
    (transitivity s1; [eapply Hm, Em | eapply Hf, Ef]).
Qed.

Lemma preserves_try_pass {A} (m : M S A) : preserves R m → preserves R (try_pass m).
Proof.
  intros Hm s r s'. unfold try_pass.
  destruct (m s) as [r1 s1] eqn:Em. intros [= _ <-]. eapply Hm, Em.
Qed.

Lemma preserves_liftW `{!HasWorld S} {A} (RW : relation World) (m : M World A) :
  (∀ s w', RW (get_world s) w' → R s (put_world w' s)) →
  preserves RW m → preserves R (liftW m).
Proof.
  intros HR Hm s r s'. unfold liftW.
  destruct (m (get_world s)) as [r1 w'] eqn:Em. intros [= _ <-].
  eapply HR, Hm, Em.
Qed.

End MonadFacts.

Lemma never_raises_handled {S A} (m : M S A) (h : Exn → M S A) :
  (∀ e, never_raises (h e)) → never_raises (try_except m h).
Proof.
  intros Hh s. unfold try_except.
  destruct (m s) as [[a|e] s1]; [eauto | apply Hh].
Qed.

(** ** The run statistics *)

Lemma counted_once_classified (s0 s s' : Stats) :
  classified s0 → s = incr_total s0 → counted_once s s' → classified s'.
Proof.
  unfold classified, counted_once. intros H0 -> [Ht Hc]. simpl in *. lia.
Qed.

(** Booking the outcome of the optimizer: one class counter goes up when it
    returns, none when it raises. *)
Lemma optimize_and_book_counts (p : string) (params : Params) (o : Options) (fr : LoopFrame) :
  (∃ fr', optimize_and_book p params o fr = (Ok tt, fr')
          ∧ counted_once (lf_stats fr) (lf_stats fr')
          ∧ lf_processed fr' = lf_processed fr)
  ∨ (∃ e w', optimize_and_book p params o fr
             = (Raise e, mkLoopFrame w' (lf_stats fr) (lf_processed fr))).
Proof.
  unfold optimize_and_book, bind, liftW.
  destruct (optimize_pdf p params (repair_mode o) (get_world fr)) as [[out|e] w'].
  - left. destruct (success out); [destruct (repaired out)|];
      (eexists; split; [reflexivity|]); (split; [|reflexivity]);
      unfold counted_once; simpl; lia.
  - right. eexists _, _. reflexivity.
Qed.

(** Lines 126-135: the handler books one failure. *)
Lemma loop_handler_counts (p : string) (w : World) (st : Stats) (pr : gset string) :
  ∃ fr', (update_stats incr_failed >>
          try_pass
            (let* there := liftW (Os.exists_ p) in
             if there
             then let* file_size := liftW (Os.getsize p) in
                  update_stats (add_optimized file_size)
             else ret tt)) (mkLoopFrame w st pr) = (Ok tt, fr')
         ∧ same_counts (incr_failed st) (lf_stats fr')
         ∧ lf_processed fr' = pr.
Proof.
  unfold bind, update_stats, modify, try_pass, liftW, Os.exists_, gets, Os.getsize, ret.
  simpl.
  destruct (Os.file_exists p w); simpl; [destruct (fs w !! p); simpl|];
    (eexists; split; [reflexivity|]); (split; [|reflexivity]);
    unfold same_counts; simpl; lia.
Qed.

Lemma read_size_cases (p : string) (w : World) (st : Stats) (pr : gset string) :
  read_size p (mkLoopFrame w st pr) =
    match fs w !! p with
    | Some bytes => (Ok (Some (Os.size_of bytes)),
                     mkLoopFrame w (add_original (Os.size_of bytes) st) pr)
    | None => (Ok None, mkLoopFrame w (incr_failed st) pr)
    end.
Proof.
  unfold read_size, try_except_OSError, try_except, bind, liftW, Os.getsize. simpl.
  destruct (fs w !! p); reflexivity.
Qed.

Lemma disk_space_check_cases (p : string) (n : N) (w : World) (st : Stats) (pr : gset string) :
  disk_space_check p n (mkLoopFrame w st pr) =
    match disk_free w !! OsPath.dirname p with
    | Some free =>
        if free <? n * 2
        then (Ok true, mkLoopFrame w (add_optimized n (incr_skipped st)) pr)
        else (Ok false, mkLoopFrame w st pr)
    | None => (Ok false, mkLoopFrame w st pr)
    end.
Proof.
  unfold disk_space_check, try_except, bind, liftW, Os.disk_usage_free. simpl.
  destruct (disk_free w !! OsPath.dirname p) as [free|]; [|reflexivity].
  destruct (free <? n * 2); reflexivity.
Qed.

Lemma make_backup_stats (p : string) (o : Options) (w : World) (st : Stats) (pr : gset string) :
  ∃ w', make_backup p o (mkLoopFrame w st pr) = (Ok tt, mkLoopFrame w' st pr).
Proof.
  unfold make_backup. destruct (backup o); [|eexists; reflexivity].
  unfold try_except, liftW. simpl.
  destruct (Os.copy2 p (p +:+ ".backup") w) as [[[]|e] w']; eexists; reflexivity.
Qed.

#[local] Opaque optimize_and_book.

(** One candidate: the loop body always completes, and exactly one class
    counter goes up. *)
Lemma process_file_counts (p : string) (params : Params) (o : Options) (fr : LoopFrame) :
  ∃ fr', process_file p params o fr = (Ok tt, fr')
         ∧ counted_once (lf_stats fr) (lf_stats fr')
         ∧ lf_processed fr' = lf_processed fr.
Proof.
  destruct fr as [w st pr].
  unfold process_file, try_except. unfold bind at 1. unfold liftW at 1, Os.exists_, gets.
  cbn [get_world put_world LoopFrame_HasWorld lf_world lf_stats lf_processed].
  unfold bind at 1. unfold liftW at 1, Os.access_R_OK, gets.
  cbn [get_world put_world LoopFrame_HasWorld lf_world lf_stats lf_processed].
  destruct (negb (Os.file_exists p w) || negb (Os.readable p w)).
  { eexists. split; [reflexivity|]. split; [|reflexivity].
    unfold counted_once; simpl; lia. }
  unfold bind at 1. rewrite read_size_cases.
  destruct (fs w !! p) as [bytes|] eqn:Hfs.
  2:{ eexists. split; [reflexivity|]. split; [|reflexivity].
      unfold counted_once; simpl; lia. }
  destruct (below_threshold (size_threshold_mb o) (Os.size_of bytes)).
  { eexists. split; [reflexivity|]. split; [|reflexivity].
    unfold counted_once; simpl; lia. }
  unfold bind at 1. rewrite disk_space_check_cases.
  assert (Hgo : ∃ fr',
    (let (r, s') :=
       (make_backup p o >> optimize_and_book p params o)
         (mkLoopFrame w (add_original (Os.size_of bytes) st) pr) in
     match r with
     | Ok a => (Ok a, s')
     | Raise _ =>
         (update_stats incr_failed >>
          try_pass
            (let* there := liftW (Os.exists_ p) in
             if there
             then let* file_size := liftW (Os.getsize p) in
                  update_stats (add_optimized file_size)
             else ret tt)) s'
     end) = (Ok tt, fr')
    ∧ counted_once st (lf_stats fr') ∧ lf_processed fr' = pr).
  { unfold bind at 1.
    destruct (make_backup_stats p o w (add_original (Os.size_of bytes) st) pr) as [w1 ->].
    destruct (optimize_and_book_counts p params o
                (mkLoopFrame w1 (add_original (Os.size_of bytes) st) pr))
      as [(fr' & -> & Hc & Hp) | (e & w2 & ->)].
    - exists fr'. split; [reflexivity|]. split; [|exact Hp].
      unfold counted_once in *. simpl in *. lia.
    - simpl lf_stats. simpl lf_processed.
      destruct (loop_handler_counts p w2 (add_original (Os.size_of bytes) st) pr)
        as (fr' & -> & Hs & Hp).
      exists fr'. split; [reflexivity|]. split; [|exact Hp].
      unfold counted_once, same_counts in *. simpl in *. lia. }
  destruct (disk_free w !! OsPath.dirname p) as [free|]; [|exact Hgo].
  destruct (free <? Os.size_of bytes * 2); [|exact Hgo].
  eexists. split; [reflexivity|]. split; [|reflexivity].
  unfold counted_once; simpl; lia.
Qed.

#[local] Transparent optimize_and_book.

Lemma for_each_invariant {S A} (I : S → Prop) (f : A → M S unit) (l : list A) :
  (∀ x s, I s → ∃ s', f x s = (Ok tt, s') ∧ I s') →
  ∀ s, I s → ∃ s', for_each f l s = (Ok tt, s') ∧ I s'.
Proof.
  intros Hf. induction l as [|x l IH]; intros s Hs; simpl.
  - exists s. split; [reflexivity | exact Hs].
  - unfold bind. destruct (Hf x s Hs) as (s1 & -> & Hs1). apply IH, Hs1.
Qed.

Lemma visit_file_classified (params : Params) (o : Options) (root file : string)
    (fr : LoopFrame) :
  classified (lf_stats fr) →
  ∃ fr', visit_file params o root file fr = (Ok tt, fr') ∧ classified (lf_stats fr').
Proof.
  intros Hc. unfold visit_file.
  destruct (negb (is_pdf_name file)); [exists fr; split; [reflexivity | exact Hc]|].
  unfold bind at 1, gets.
  destruct (bool_decide (OsPath.join root file ∈ lf_processed fr)
            || looks_temporary (OsPath.join root file));
    [exists fr; split; [reflexivity | exact Hc]|].
  unfold bind at 1, mark_processed, modify. unfold bind at 1, update_stats, modify.
  cbn [lf_world lf_stats lf_processed].
  destruct (process_file_counts (OsPath.join root file) params o
              (mkLoopFrame (lf_world fr) (incr_total (lf_stats fr))
                 ({[OsPath.join root file]} ∪ lf_processed fr)))
    as (fr' & -> & Hcount & _).
  exists fr'. split; [reflexivity|].
  eapply counted_once_classified; [exact Hc | reflexivity | exact Hcount].
Qed.


(** ** The directory walk *)

Example leftover_name_value : Examples.leftover_name = ".temp_opt_a.pdf_7_42.pdf".
Proof. reflexivity. Qed.

(** C9. During the walk only files whose names end with ".pdf", case
    insensitively, are candidates: a file with any other name is passed over
    without touching the statistics (not even total_files), the set of
    processed paths or the world. *)
Theorem C9_other_names_ignored (params : Params) (o : Options) (root file : string)
    (fr : LoopFrame) :
  is_pdf_name file = false →
  visit_file params o root file fr = (Ok tt, fr).
Proof. intros H. unfold visit_file. now rewrite H. Qed.

Lemma C9_other_names_ignored_witness :
  is_pdf_name "notes.txt" = false
  ∧ visit_file (params_for 1) Examples.medium "/d" "notes.txt"
      (mkLoopFrame (Examples.world_with [] []) initial_stats ∅)
    = (Ok tt, mkLoopFrame (Examples.world_with [] []) initial_stats ∅).
Proof.
  split; [reflexivity|].
  apply (C9_other_names_ignored (params_for 1) Examples.medium "/d" "notes.txt").
  reflexivity.
Defined.

(** The candidates are exactly the names whose lower-cased form has the
    suffix ".pdf". *)
Lemma is_pdf_name_spec (file : string) :
  is_pdf_name file = true ↔ ∃ stem, PyStr.lower file = stem +:+ ".pdf".
Proof. apply endswith_spec. Qed.

(** A run is the run over the candidates alone. *)
Lemma for_each_visit_filter (params : Params) (o : Options) (root : string)
    (files : list string) (fr : LoopFrame) :
  for_each (visit_file params o root) files fr
  = for_each (visit_file params o root) (List.filter is_pdf_name files) fr.
Proof.
  revert fr. induction files as [|file files IH]; intros fr; [reflexivity|].
  simpl. destruct (is_pdf_name file) eqn:Hn.
  - simpl. unfold bind. destruct (visit_file params o root file fr) as [[[]|e] fr1];
      [apply IH | reflexivity].
  - unfold bind. unfold visit_file at 1; rewrite Hn; simpl. apply IH.
Qed.

(** C4 (the code departs from it). A path that matches the naming
    pattern of the tool's own temporary files is to be ignored by the walk.
    The walk tests for ".temp_optimized.pdf", while [optimize_pdf] names its
    temporary files ".temp_opt_<name>_<pid>_<time>.pdf": on a tree that holds
    such a leftover, the leftover is a candidate, is counted in total_files
    and is handed to the optimizer, which asks the engine to open it. *)
Theorem C4_leftover_temp_file_is_input :
  let leftover := OsPath.join "/d" Examples.leftover_name in
  leftover = temp_path_for "/d/a.pdf" (Examples.world_with [] [])
  ∧ is_pdf_name Examples.leftover_name = true
  ∧ looks_temporary leftover = false
  ∧ ∃ stats w',
      optimize_pdfs [("/d", [Examples.leftover_name])] Examples.medium
        Examples.leftover_world = (Ok stats, w')
      ∧ total_files stats = 1
      ∧ failed_files stats = 1
      ∧ engine_log w' = [COpen leftover].
Proof.
  cbv zeta. split; [reflexivity|]. split; [reflexivity|]. split; [reflexivity|].
  eexists _, _. split; [vm_compute; reflexivity|].
  split; [reflexivity|]. split; reflexivity.
Qed.

(** ** What the primitives do to the file system *)

Lemma file_exists_Some (p : string) (w : World) (bytes : string) :
  fs w !! p = Some bytes → Os.file_exists p w = true.
Proof. intros H. unfold Os.file_exists. apply bool_decide_eq_true. rewrite H. eauto. Qed.

Lemma file_exists_None (p : string) (w : World) :
  fs w !! p = None → Os.file_exists p w = false.
Proof.
  intros H. unfold Os.file_exists. apply bool_decide_eq_false.
  rewrite H. intros [? ?]; discriminate.
Qed.

Lemma open_fs (q : string) (w w' : World) (r : Res Document) :
  Fitz.open q w = (r, w') → fs w' = fs w.
Proof.
  unfold Fitz.open. destruct (negb _); [intros [= _ <-]; reflexivity|].
  cbn [open_answers log_call].
  destruct (open_answers w) as [|[e|d] rest]; intros [= _ <-]; reflexivity.
Qed.

Lemma save_fs_other (d : Document) (q p : string) (o : SaveOptions) (w w' : World)
    (r : Res unit) :
  Fitz.save d q o w = (r, w') → q ≠ p → fs w' !! p = fs w !! p.
Proof.
  unfold Fitz.save. intros H Hne.
  destruct (doc_closed d); [injection H as _ <-; reflexivity|].
  cbn [save_answers log_call] in H.
  destruct (save_answers w) as [|a rest]; [injection H as _ <-; reflexivity|].
  destruct (sa_written a) as [bytes|].
  - destruct (Os.entry_locked _ _); [injection H as _ <-; reflexivity|].
    destruct (sa_raises a); injection H as _ <-; cbn; now rewrite lookup_insert_ne.
  - destruct (sa_raises a); injection H as _ <-; reflexivity.
Qed.

Lemma save_log (d : Document) (q : string) (o : SaveOptions) (w w' : World) (r : Res unit) :
  Fitz.save d q o w = (r, w') → engine_log w' = (engine_log w ++ [CSave q o])%list.
Proof.
  unfold Fitz.save. intros H.
  destruct (doc_closed d); [injection H as _ <-; reflexivity|].
  cbn [save_answers log_call] in H.
  destruct (save_answers w) as [|a rest]; [injection H as _ <-; reflexivity|].
  destruct (sa_written a) as [bytes|].
  - destruct (Os.entry_locked _ _); [injection H as _ <-; reflexivity|].
    destruct (sa_raises a); injection H as _ <-; reflexivity.
  - destruct (sa_raises a); injection H as _ <-; reflexivity.
Qed.

Lemma remove_fs_other (q p : string) (w w' : World) (r : Res unit) :
  Os.remove q w = (r, w') → q ≠ p → fs w' !! p = fs w !! p.
Proof.
  unfold Os.remove. intros H Hne.
  destruct (fs w !! q); [|injection H as _ <-; reflexivity].
  destruct (Os.entry_locked _ _); injection H as _ <-; [reflexivity|].
  cbn. now rewrite lookup_delete_ne.
Qed.

Lemma remove_log (q : string) (w w' : World) (r : Res unit) :
  Os.remove q w = (r, w') → engine_log w' = engine_log w.
Proof.
  unfold Os.remove. intros H.
  destruct (fs w !! q); [|injection H as _ <-; reflexivity].
  destruct (Os.entry_locked _ _); injection H as _ <-; reflexivity.
Qed.

(** The handler of [optimize_pdf] always returns; it records the message,
    leaves every file but the temporary one alone and calls no engine. *)
Lemma on_error_returns (temp : string) (e : Exn) (fr : OptFrame) :
  ∃ w', on_error temp e fr
        = (Ok tt, mkOptFrame w' (with_error (str_of_exn e) (of_result fr)))
        ∧ engine_log w' = engine_log (of_world fr)
        ∧ ∀ p, temp ≠ p → fs w' !! p = fs (of_world fr) !! p.
Proof.
  destruct fr as [w res].
  unfold on_error, bind, set_result, modify, try_except, liftW, Os.exists_, gets.
  cbn [get_world put_world OptFrame_HasWorld of_world of_result].
  destruct (Os.file_exists temp w);
    cbn [get_world put_world OptFrame_HasWorld of_world of_result].
  - destruct (Os.remove temp w) as [[[]|e'] w'] eqn:Hrm;
      (exists w'; split; [reflexivity|]; split;
       [eapply remove_log, Hrm | intros p Hp; eapply remove_fs_other; eauto]).
  - exists w. split; [reflexivity|]. split; reflexivity.
Qed.

(** ** The single-file optimizer *)



Lemma optimize_pdf_encrypted (p : string) (params : Params) (rm : bool) (w : World)
    (bytes : string) (d : DocData) (rest : list (Exn + DocData)) :
  fs w !! p = Some bytes →
  open_answers w = inr d :: rest →
  dd_is_encrypted d = true →
  optimize_pdf p params rm w =
    (Ok (mkFileOutcome false (Os.size_of bytes) (Os.size_of bytes)
           (Some "PDF is encrypted") false),
     set_open_answers rest (log_call (COpen p) w)).
Proof.
  intros Hfs Hans Henc.
  unfold optimize_pdf, bind at 1. unfold Os.getsize. rewrite Hfs.
  unfold bind at 1, gets.
  unfold bind at 1, with_frame, try_except, try_body.
  unfold bind at 1, prepare. unfold bind at 1. unfold open_document, try_except, liftW.
  simpl get_world. unfold Fitz.open.
  rewrite (file_exists_Some p (log_call (COpen p) w) bytes) by exact Hfs.
  simpl negb. cbv iota. simpl open_answers. rewrite Hans.
  simpl. unfold is_encrypted. simpl. rewrite Henc. reflexivity.
Qed.

(** C7. A PDF that opens and reports encryption: [optimize_pdf] returns
    success = false with the error "PDF is encrypted"; the engine was asked to
    open the file and nothing else (no save), and the file system is what it
    was: no temporary file, the file itself byte for byte the same. *)
Theorem C7_encrypted_is_left_alone (p : string) (params : Params) (rm : bool) (w : World)
    (bytes : string) (d : DocData) (rest : list (Exn + DocData)) :
  fs w !! p = Some bytes →
  open_answers w = inr d :: rest →
  dd_is_encrypted d = true →
  ∃ out w', optimize_pdf p params rm w = (Ok out, w')
    ∧ success out = false
    ∧ error out = Some "PDF is encrypted"
    ∧ new_size out = original_size out
    ∧ engine_log w' = (engine_log w ++ [COpen p])%list
    ∧ save_answers w' = save_answers w
    ∧ fs w' = fs w.
Proof.
  intros Hfs Hans Henc.
  rewrite (optimize_pdf_encrypted p params rm w bytes d rest Hfs Hans Henc).
  eexists _, _. split; [reflexivity|]. repeat split.
Qed.

Lemma C7_encrypted_is_left_alone_witness :
  ∃ out w',
    optimize_pdf "/d/a.pdf" (params_for 1) false
      (Examples.world_with [inr Examples.encrypted_doc] []) = (Ok out, w')
    ∧ success out = false
    ∧ error out = Some "PDF is encrypted"
    ∧ new_size out = original_size out
    ∧ engine_log w' = [COpen "/d/a.pdf"]
    ∧ save_answers w' = []
    ∧ fs w' = {[ "/d/a.pdf" := "0123456789" ]}.
Proof.
  apply (C7_encrypted_is_left_alone "/d/a.pdf" (params_for 1) false
           (Examples.world_with [inr Examples.encrypted_doc] [])
           "0123456789" Examples.encrypted_doc []);
    reflexivity.
Defined.

(** The call of line 230 hands two arguments to a function of one
    parameter. *)
Lemma last_resort_call (pdf_path temp : string) (w : World) :
  call_page_by_page_recovery [pdf_path; temp] w
  = (Raise (mkExn TypeError
              "page_by_page_recovery() takes 1 positional argument but 2 were given"),
     w).
Proof. reflexivity. Qed.

(** C3 (the code departs from it). With repair mode on, when the standard
    save and the conservative save both fail, the optimizer is to fall back
    to a page-by-page reconstruction written to its temporary path.  The call
    that should do so (line 230) passes two arguments to
    [page_by_page_recovery], which takes one: a TypeError is raised before the
    function is entered.  No reconstruction is attempted (the engine is not
    called again after the second save), and the outcome is the failure
    carrying the TypeError message, whatever the pages of the document. *)
Theorem C3_last_resort_never_runs (p : string) (params : Params) (w w2 w3 : World)
    (bytes : string) (d : DocData) (rest : list (Exn + DocData)) (e1 e2 : Exn) :
  fs w !! p = Some bytes →
  open_answers w = inr d :: rest →
  dd_is_encrypted d = false →
  Fitz.save (mkDocument d false) (temp_path_for p w)
    (mkSaveOptions false (garbage params) (deflate params) (clean params))
    (set_open_answers rest (log_call (COpen p) w)) = (Raise e1, w2) →
  Fitz.save (mkDocument d false) (temp_path_for p w)
    (mkSaveOptions true 1 true false) w2 = (Raise e2, w3) →
  ∃ w', optimize_pdf p params true w
        = (Ok (mkFileOutcome false (Os.size_of bytes) (Os.size_of bytes)
                 (Some "page_by_page_recovery() takes 1 positional argument but 2 were given")
                 false),
           w')
    ∧ engine_log w' = engine_log w3
    ∧ fs w' !! p = Some bytes.
Proof.
  intros Hfs Hans Henc Hs1 Hs2.
  unfold optimize_pdf, bind at 1. unfold Os.getsize. rewrite Hfs.
  unfold bind at 1, gets.
  unfold bind at 1, with_frame, try_except at 1, try_body.
  unfold bind at 1, prepare. unfold bind at 1. unfold open_document, try_except at 1, liftW at 1.
  cbn [get_world put_world OptFrame_HasWorld of_world of_result]. unfold Fitz.open.
  rewrite (file_exists_Some p (log_call (COpen p) w) bytes) by exact Hfs.
  cbn [negb open_answers log_call]. rewrite Hans.
  unfold is_encrypted. cbn [doc_data]. rewrite Henc.
  unfold bind at 1, save_document, try_except at 1.
  unfold bind at 1, liftW at 1.
  cbn [get_world put_world OptFrame_HasWorld of_world of_result].
  rewrite Hs1. cbn [negb].
  unfold try_except at 1. unfold bind at 1, liftW at 1.
  cbn [get_world put_world OptFrame_HasWorld of_world of_result].
  rewrite Hs2.
  unfold bind at 1, Fitz.close. cbn [doc_closed ret].
  unfold bind at 1, liftW at 1.
  cbn [get_world put_world OptFrame_HasWorld of_world of_result].
  rewrite last_resort_call.
  destruct (on_error_returns (temp_path_for p w)
              (mkExn TypeError
                 "page_by_page_recovery() takes 1 positional argument but 2 were given")
              (mkOptFrame w3 (initial_result (Os.size_of bytes))))
    as (w' & -> & Hlog & Hfs').
  exists w'. split; [reflexivity|]. split; [exact Hlog|].
  rewrite Hfs' by apply temp_path_ne. cbn [of_world].
  rewrite (save_fs_other _ _ p _ _ _ _ Hs2) by apply temp_path_ne.
  rewrite (save_fs_other _ _ p _ _ _ _ Hs1) by apply temp_path_ne.
  exact Hfs.
Qed.

Lemma C3_last_resort_never_runs_witness :
  ∃ w', optimize_pdf "/d/a.pdf" (params_for 1) true
          (Examples.world_with [inr Examples.two_pages]
             [mkSaveAnswer None (Some Examples.save_failed);
              mkSaveAnswer None (Some Examples.save_failed)])
        = (Ok (mkFileOutcome false 10 10
                 (Some "page_by_page_recovery() takes 1 positional argument but 2 were given")
                 false),
           w')
    ∧ engine_log w'
      = [COpen "/d/a.pdf";
         CSave "/d/.temp_opt_a.pdf_7_42.pdf" (mkSaveOptions false 3 true true);
         CSave "/d/.temp_opt_a.pdf_7_42.pdf" (mkSaveOptions true 1 true false)]
    ∧ fs w' !! "/d/a.pdf" = Some "0123456789".
Proof.
  edestruct C3_last_resort_never_runs
    with (p := "/d/a.pdf") (params := params_for 1)
         (w := Examples.world_with [inr Examples.two_pages]
                 [mkSaveAnswer None (Some Examples.save_failed);
                  mkSaveAnswer None (Some Examples.save_failed)])
         (bytes := "0123456789") (d := Examples.two_pages)
         (rest := @nil (Exn + DocData))
         (e1 := Examples.save_failed) (e2 := Examples.save_failed)
    as (w' & Hrun & Hlog & Hfile);
    [reflexivity | reflexivity | reflexivity | reflexivity | reflexivity |].
  exists w'. split; [exact Hrun|]. split; [rewrite Hlog; reflexivity | exact Hfile].
Defined.

(** ** The repair pipeline *)

(** Without a temporary file the [finally] of line 410 reads an unbound
    local. *)
Lemma recovery_without_temp_file (p : string) (w w1 : World) :
  direct_open p w = (Ok None, w1) →
  tmp_names w1 = [] →
  page_by_page_recovery p w
  = (Raise (mkExn UnboundLocalError
              "cannot access local variable 'temp_file' where it is not associated with a value"),
     w1).
Proof.
  intros Hd Ht. unfold page_by_page_recovery, bind at 1. rewrite Hd.
  unfold bind at 1, with_frame, reconstruct, try_finally, try_except.
  unfold bind at 1, liftW at 1, Os.named_temporary_file.
  cbn [get_world put_world RecFrame_HasWorld rf_world]. rewrite Ht.
  reflexivity.
Qed.

(** C8 (the code departs from it). [page_by_page_recovery] is to return its
    failure value, never raise.  When the direct open fails and no temporary
    file can be created (line 362 raises), the handler of line 408 catches
    that error, and the [finally] of line 410 then reads [temp_file], which
    was never assigned: an UnboundLocalError leaves the function. *)
Theorem C8_recovery_raises_without_temp_file :
  let w := set_tmp_names [] (Examples.world_with [inl Examples.broken] []) in
  ∃ w', page_by_page_recovery "/d/a.pdf" w
        = (Raise (mkExn UnboundLocalError
                    "cannot access local variable 'temp_file' where it is not associated with a value"),
           w')
    ∧ fs w' = fs w.
Proof.
  cbv zeta. eexists. split.
  - apply recovery_without_temp_file; reflexivity.
  - reflexivity.
Qed.

(** ** Frames of [optimize_pdf] *)

#[local] Instance keeps_file_w_preorder (p : string) : PreOrder (keeps_file_w p).
Proof.
  split.
  - intros w. reflexivity.
  - intros a b c Hab Hbc. unfold keeps_file_w in *. congruence.
Qed.

#[local] Instance keeps_file_preorder (p : string) : PreOrder (keeps_file p).
Proof.
  split.
  - intros fr. unfold keeps_file. reflexivity.
  - intros a b c Hab Hbc. unfold keeps_file in *. etransitivity; eassumption.
Qed.

#[local] Instance same_verdict_preorder : PreOrder same_verdict.
Proof.
  split.
  - intros fr. unfold same_verdict. auto.
  - intros a b c (?&?&?) (?&?&?). unfold same_verdict. repeat split; congruence.
Qed.

Ltac pres_step :=
  match goal with
  | |- preserves _ (bind _ _) => apply preserves_bind; [try apply _| |intros ?]
  | |- preserves _ (try_except _ _) => apply preserves_try_except; [try apply _| |intros ?]
  | |- preserves _ (try_pass _) => apply preserves_try_pass
  | |- preserves _ (ret _) => apply preserves_ret; try apply _
  | |- preserves _ (raise _) => apply preserves_raise; try apply _
  | |- preserves _ (gets _) => apply preserves_gets; try apply _
  | |- preserves _ (if ?b then _ else _) => destruct b
  | |- preserves _ (match ?x with _ => _ end) => destruct x
  end.

(** Whatever runs on the world alone leaves [result] as it is. *)
Lemma liftW_same_verdict {A} (m : M World A) : preserves same_verdict (liftW m).
Proof.
  intros [w res] r fr'. unfold liftW.
  cbn [get_world put_world OptFrame_HasWorld of_world of_result].
  destruct (m w) as [r1 w1]. intros [= _ <-]. unfold same_verdict. auto.
Qed.

Lemma set_repaired_same_verdict (b : bool) :
  preserves same_verdict (set_result (with_repaired b)).
Proof. intros fr r fr' [= _ <-]. unfold same_verdict. auto. Qed.

Lemma set_error_same_verdict (msg : string) :
  preserves same_verdict (set_result (with_error msg)).
Proof. intros fr r fr' [= _ <-]. unfold same_verdict. auto. Qed.

Lemma close_preserves {S} (R : relation S) `{!PreOrder R} (d : Document) :
  preserves R (Fitz.close d).
Proof. unfold Fitz.close. repeat pres_step. Qed.

Lemma truthy_opt_preserves {S} (R : relation S) `{!PreOrder R} (x : option Document) :
  preserves R (truthy_opt x).
Proof. unfold truthy_opt, Fitz.truthy. repeat pres_step. Qed.

Create HintDb pres.

#[local] Hint Resolve liftW_same_verdict set_repaired_same_verdict
  set_error_same_verdict : pres.
#[local] Hint Extern 1 (preserves _ (Fitz.close _)) => apply close_preserves; apply _ : pres.
#[local] Hint Extern 1 (preserves _ (truthy_opt _)) => apply truthy_opt_preserves; apply _ : pres.

(** Up to the size gate the verdict is the initial one: not a success, both
    sizes the original size. *)
Lemma prepare_same_verdict (p temp : string) (params : Params) (rm : bool) :
  preserves same_verdict (prepare p temp params rm).
Proof.
  unfold prepare, open_document, save_document.
  repeat (first [pres_step | solve [auto with pres]]).
Qed.

Lemma bind_Ok_inv {S A B} (m : M S A) (k : A → M S B) (s s' : S) (b : B) :
  bind m k s = (Ok b, s') → ∃ a s1, m s = (Ok a, s1) ∧ k a s1 = (Ok b, s').
Proof.
  unfold bind. destruct (m s) as [[a|e] s1]; [eauto | discriminate].
Qed.

Lemma liftW_keeps_file {A} (p : string) (m : M World A) :
  preserves (keeps_file_w p) m → preserves (keeps_file p) (liftW m).
Proof.
  apply preserves_liftW. intros [w res] w' H. exact H.
Qed.

Lemma set_result_keeps_file (p : string) (f : FileOutcome → FileOutcome) :
  preserves (keeps_file p) (set_result f).
Proof. intros fr r fr' [= _ <-]. reflexivity. Qed.

Lemma open_keeps_file (p q : string) : preserves (keeps_file_w p) (Fitz.open q).
Proof. intros w r w' H. unfold keeps_file_w. now rewrite (open_fs _ _ _ _ H). Qed.

Lemma save_keeps_file (p q : string) (d : Document) (o : SaveOptions) :
  q ≠ p → preserves (keeps_file_w p) (Fitz.save d q o).
Proof. intros Hne w r w' H. eapply save_fs_other; eassumption. Qed.

Lemma exists_keeps_file (p q : string) : preserves (keeps_file_w p) (Os.exists_ q).
Proof. apply preserves_gets, _. Qed.

Lemma last_resort_keeps_file (p q temp : string) :
  preserves (keeps_file_w p) (call_page_by_page_recovery [q; temp]).
Proof. intros w r w'. rewrite last_resort_call. intros [= _ <-]. reflexivity. Qed.

#[local] Hint Resolve liftW_keeps_file set_result_keeps_file open_keeps_file
  save_keeps_file exists_keeps_file last_resort_keeps_file : pres.

(** The save attempts write to the temporary path only. *)
Lemma save_document_keeps_file (p temp : string) (params : Params) (rm : bool)
    (doc : Document) :
  temp ≠ p → preserves (keeps_file p) (save_document p temp params rm doc).
Proof.
  intros Hne. unfold save_document.
  repeat (first [pres_step | solve [auto with pres]]).
Qed.

(** Lines 177-188 when the repair pipeline is not entered. *)
Lemma open_document_keeps_file (p : string) (rm : bool) (fr fr' : OptFrame)
    (r : Res Document) :
  repair_not_entered rm (of_world fr) →
  Os.file_exists p (of_world fr) = true →
  open_document p rm fr = (r, fr') →
  keeps_file p fr fr'.
Proof.
  destruct fr as [w res]. cbn [of_world]. intros Hrep Hex.
  unfold open_document, try_except, liftW.
  cbn [get_world put_world OptFrame_HasWorld of_world of_result].
  destruct (Fitz.open p w) as [[doc|e] w1] eqn:Hopen.
  - intros [= _ <-]. unfold keeps_file, keeps_file_w. cbn [of_world].
    now rewrite (open_fs _ _ _ _ Hopen).
  - destruct Hrep as [-> | (d & rest & Hans)].
    + intros [= _ <-]. unfold keeps_file, keeps_file_w. cbn [of_world].
      now rewrite (open_fs _ _ _ _ Hopen).
    + exfalso. unfold Fitz.open in Hopen.
      replace (Os.file_exists p (log_call (COpen p) w)) with true in Hopen
        by (symmetry; exact Hex).
      cbn [negb open_answers log_call] in Hopen. rewrite Hans in Hopen. discriminate.
Qed.

Lemma prepare_keeps_file (p temp : string) (params : Params) (rm : bool)
    (fr fr' : OptFrame) (r : Res bool) :
  temp ≠ p →
  repair_not_entered rm (of_world fr) →
  Os.file_exists p (of_world fr) = true →
  prepare p temp params rm fr = (r, fr') →
  keeps_file p fr fr'.
Proof.
  intros Hne Hrep Hex. unfold prepare. unfold bind at 1.
  destruct (open_document p rm fr) as [[doc|e] fr1] eqn:Hopen.
  - intros Hrest. transitivity fr1.
    + eapply open_document_keeps_file; eassumption.
    + revert Hrest. generalize fr1 r fr'.
      change (preserves (keeps_file p)
                (if is_encrypted doc
                 then Fitz.close doc >> set_result (with_error "PDF is encrypted") >> ret false
                 else
                   let* pdf_document := save_document p temp params rm doc in
                   try_pass (Fitz.close pdf_document) >>
                   (let* there := liftW (Os.exists_ temp) in
                    if negb there
                    then raise (mkExn PlainException
                                  ("Temporary optimized file was not created: " +:+ temp))
                    else ret true))).
      destruct (is_encrypted doc).
      * repeat (first [pres_step | solve [auto with pres]]).
      * apply preserves_bind; [apply _ | now apply save_document_keeps_file | intros d'].
        repeat (first [pres_step | solve [auto with pres]]).
  - intros [= _ <-]. eapply open_document_keeps_file; eassumption.
Qed.

(** When [prepare] says go on, the temporary file is there. *)
Lemma prepare_true_exists (p temp : string) (params : Params) (rm : bool)
    (fr fr' : OptFrame) :
  prepare p temp params rm fr = (Ok true, fr') →
  Os.file_exists temp (of_world fr') = true.
Proof.
  unfold prepare. intros H.
  apply bind_Ok_inv in H as (doc & fr1 & _ & H).
  destruct (is_encrypted doc).
  - apply bind_Ok_inv in H as (? & ? & _ & H).
    apply bind_Ok_inv in H as (? & ? & _ & H). discriminate.
  - apply bind_Ok_inv in H as (doc' & fr2 & _ & H).
    apply bind_Ok_inv in H as ([] & fr3 & _ & H).
    apply bind_Ok_inv in H as (there & fr4 & Hex & H).
    destruct there; [|discriminate]. injection H as <-.
    unfold liftW, Os.exists_, gets in Hex. destruct fr3 as [w3 res3].
    cbn [get_world put_world OptFrame_HasWorld of_world of_result] in Hex.
    injection Hex as Hex <-. exact Hex.
Qed.

(** The size gate, case by case. *)
Lemma commit_cases (p temp : string) (orig : N) (w1 : World) (res : FileOutcome) :
  commit p temp orig (mkOptFrame w1 res) =
    match fs w1 !! temp with
    | None => (Raise (mkExn OSError "No such file or directory"), mkOptFrame w1 res)
    | Some tb =>
        if Os.size_of tb <? orig then
          if Os.entry_locked temp w1 || Os.entry_locked p w1
          then (Raise (mkExn PlainException
                         "Failed to replace original file: Permission denied"),
                mkOptFrame w1 res)
          else (Ok tt,
                mkOptFrame (set_fs (λ m, <[p := tb]> (delete temp m)) w1)
                  (with_new_size (Os.size_of tb) (with_success true res)))
        else
          if Os.entry_locked temp w1
          then (Raise (mkExn OSError "Permission denied"), mkOptFrame w1 res)
          else (Ok tt, mkOptFrame (set_fs (delete temp) w1) (with_success true res))
    end.
Proof.
  unfold commit, bind at 1, liftW at 1, Os.getsize.
  cbn [get_world put_world OptFrame_HasWorld of_world of_result].
  destruct (fs w1 !! temp) as [tb|] eqn:Htemp; [|reflexivity].
  destruct (Os.size_of tb <? orig).
  - unfold try_except, bind, liftW, Os.rename.
    cbn [get_world put_world OptFrame_HasWorld of_world of_result]. rewrite Htemp.
    destruct (Os.entry_locked temp w1 || Os.entry_locked p w1); reflexivity.
  - unfold bind, liftW, Os.remove.
    cbn [get_world put_world OptFrame_HasWorld of_world of_result]. rewrite Htemp.
    destruct (Os.entry_locked temp w1); reflexivity.
Qed.

(** [optimize_pdf] once the size of the file is known: what it returns,
    from the result of [prepare]. *)
Lemma optimize_pdf_after_prepare (p : string) (params : Params) (rm : bool) (w : World)
    (bytes : string) (r1 : Res bool) (w1 : World) (res1 : FileOutcome) :
  fs w !! p = Some bytes →
  prepare p (temp_path_for p w) params rm
    (mkOptFrame w (initial_result (Os.size_of bytes))) = (r1, mkOptFrame w1 res1) →
  ∃ out w', optimize_pdf p params rm w = (Ok out, w')
    ∧ match r1 with
      | Ok true =>
          match commit p (temp_path_for p w) (Os.size_of bytes) (mkOptFrame w1 res1) with
          | (Ok _, fr2) => out = of_result fr2 ∧ w' = of_world fr2
          | (Raise e, fr2) =>
              out = with_error (str_of_exn e) (of_result fr2)
              ∧ ∀ q, temp_path_for p w ≠ q → fs w' !! q = fs (of_world fr2) !! q
          end
      | Ok false => out = res1 ∧ w' = w1
      | Raise e =>
          out = with_error (str_of_exn e) res1
          ∧ ∀ q, temp_path_for p w ≠ q → fs w' !! q = fs w1 !! q
      end.
Proof.
  intros Hfs Hprep.
  unfold optimize_pdf. unfold bind at 1. unfold Os.getsize. rewrite Hfs.
  unfold bind at 1, gets. unfold bind at 1, with_frame, try_except, try_body.
  unfold bind at 1. rewrite Hprep.
  destruct r1 as [[|]|e].
  - destruct (commit p (temp_path_for p w) (Os.size_of bytes) (mkOptFrame w1 res1))
      as [[[]|e] fr2].
    + eexists _, _. split; [reflexivity|]. split; reflexivity.
    + destruct (on_error_returns (temp_path_for p w) e fr2) as (w' & -> & _ & Hother).
      eexists _, _. split; [reflexivity|]. split; [reflexivity | exact Hother].
  - eexists _, _. split; [reflexivity|]. split; reflexivity.
  - destruct (on_error_returns (temp_path_for p w) e (mkOptFrame w1 res1))
      as (w' & -> & _ & Hother).
    eexists _, _. split; [reflexivity|]. split; [reflexivity | exact Hother].
Qed.

Lemma initial_verdict (fr0 fr1 : OptFrame) (n : N) :
  of_result fr0 = initial_result n →
  same_verdict fr0 fr1 →
  success (of_result fr1) = false
  ∧ original_size (of_result fr1) = n
  ∧ new_size (of_result fr1) = n.
Proof. intros H0 (Hs & Ho & Hn). rewrite Hs, Ho, Hn, H0. auto. Qed.







(** ** Encrypted files in a directory run *)

Lemma make_backup_world (p : string) (o : Options) (w : World) (st : Stats)
    (pr : gset string) :
  ∃ w1, make_backup p o (mkLoopFrame w st pr) = (Ok tt, mkLoopFrame w1 st pr)
        ∧ fs w1 !! p = fs w !! p
        ∧ open_answers w1 = open_answers w.
Proof.
  unfold make_backup. destruct (backup o); [|exists w; repeat split].
  unfold try_except, liftW, Os.copy2.
  cbn [get_world put_world LoopFrame_HasWorld lf_world lf_stats lf_processed].
  destruct (fs w !! p) as [bytes|] eqn:Hfs;
    [|exists w; split; [reflexivity|]; split; [exact Hfs | reflexivity]].
  destruct (bool_decide (p ∈ unreadable w) || Os.entry_locked (p +:+ ".backup") w);
    [exists w; split; [reflexivity|]; split; [exact Hfs | reflexivity]|].
  eexists. split; [reflexivity|]. split; [|reflexivity].
  cbn. rewrite lookup_insert_ne; [exact Hfs|].
  now apply append_suffix_ne.
Qed.

(** C10, as the code has it. An encrypted PDF that reaches the optimizer
    during a directory run (it is readable, not under the size threshold, and
    passes the disk-space check) and opens is booked as failed: failed_files
    goes up by one, skipped_files and optimized_files stay, and its size is
    added to the original and to the optimized byte total alike. *)
Theorem C10_encrypted_booked_as_failed (p : string) (params : Params) (o : Options)
    (w : World) (st : Stats) (pr : gset string) (bytes : string) (d : DocData)
    (rest : list (Exn + DocData)) :
  fs w !! p = Some bytes →
  Os.readable p w = true →
  below_threshold (size_threshold_mb o) (Os.size_of bytes) = false →
  passes_disk_check p (Os.size_of bytes) w = true →
  open_answers w = inr d :: rest →
  dd_is_encrypted d = true →
  ∃ w' st',
    process_file p params o (mkLoopFrame w st pr) = (Ok tt, mkLoopFrame w' st' pr)
    ∧ failed_files st' = failed_files st + 1
    ∧ skipped_files st' = skipped_files st
    ∧ optimized_files st' = optimized_files st
    ∧ optimized_size_bytes st' = optimized_size_bytes st + Os.size_of bytes
    ∧ original_size_bytes st' = original_size_bytes st + Os.size_of bytes
    ∧ fs w' !! p = Some bytes.
Proof.
  intros Hfs Hread Hthr Hdisk Hans Henc.
  unfold process_file, try_except. unfold bind at 1. unfold liftW at 1, Os.exists_, gets.
  cbn [get_world put_world LoopFrame_HasWorld lf_world lf_stats lf_processed].
  unfold bind at 1. unfold liftW at 1, Os.access_R_OK, gets.
  cbn [get_world put_world LoopFrame_HasWorld lf_world lf_stats lf_processed].
  rewrite (file_exists_Some p w bytes Hfs), Hread. cbn [negb orb].
  unfold bind at 1. rewrite read_size_cases, Hfs, Hthr.
  assert (Hdsc : disk_space_check p (Os.size_of bytes)
                    (mkLoopFrame w (add_original (Os.size_of bytes) st) pr)
                  = (Ok false, mkLoopFrame w (add_original (Os.size_of bytes) st) pr)).
  { rewrite disk_space_check_cases. unfold passes_disk_check in Hdisk.
    destruct (disk_free w !! OsPath.dirname p) as [free|]; [|reflexivity].
    apply negb_true_iff in Hdisk. now rewrite Hdisk. }
  unfold bind at 1. rewrite Hdsc.
  unfold bind at 1.
  destruct (make_backup_world p o w (add_original (Os.size_of bytes) st) pr)
    as (w1 & -> & Hfs1 & Hans1).
  rewrite Hfs in Hfs1. rewrite Hans in Hans1.
  unfold optimize_and_book, bind at 1, liftW at 1.
  cbn [get_world put_world LoopFrame_HasWorld lf_world lf_stats lf_processed].
  rewrite (optimize_pdf_encrypted p params (repair_mode o) w1 bytes d rest Hfs1 Hans1 Henc).
  cbn [success original_size].
  eexists _, _. split; [reflexivity|]. cbn. repeat split. exact Hfs1.
Qed.

Lemma C10_encrypted_booked_as_failed_witness :
  ∃ w' st',
    process_file "/d/a.pdf" (params_for 1) Examples.medium
      (mkLoopFrame (Examples.world_with [inr Examples.encrypted_doc] []) initial_stats ∅)
    = (Ok tt, mkLoopFrame w' st' ∅)
    ∧ failed_files st' = 1
    ∧ skipped_files st' = 0
    ∧ optimized_files st' = 0
    ∧ optimized_size_bytes st' = 10
    ∧ original_size_bytes st' = 10
    ∧ fs w' !! "/d/a.pdf" = Some "0123456789".
Proof.
  apply (C10_encrypted_booked_as_failed "/d/a.pdf" (params_for 1) Examples.medium
           (Examples.world_with [inr Examples.encrypted_doc] []) initial_stats ∅
           "0123456789" Examples.encrypted_doc []);
    vm_compute; reflexivity.
Defined.

(** C10 as stated fails: an encrypted PDF under the size threshold is
    skipped before the engine is asked to open it; skipped_files goes up,
    failed_files does not. *)
Lemma C10_counterexample :
  ∃ stats w',
    optimize_pdfs [("/d", ["a.pdf"])] Examples.above_5mb
      (Examples.world_with [inr Examples.encrypted_doc] []) = (Ok stats, w')
    ∧ skipped_files stats = 1
    ∧ failed_files stats = 0
    ∧ engine_log w' = [].
Proof.
  eexists _, _. split; [vm_compute; reflexivity|]. repeat split.
Qed.

(** ** The repair pipeline outside the failing case *)

#[local] Instance keeps_temp_file_preorder : PreOrder keeps_temp_file.
Proof.
  split.
  - intros fr. reflexivity.
  - intros a b c Hab Hbc. unfold keeps_temp_file in *. congruence.
Qed.

Lemma liftW_keeps_temp_file {A} (m : M World A) : preserves keeps_temp_file (liftW m).
Proof.
  intros [w t s] r fr'. unfold liftW.
  cbn [get_world put_world RecFrame_HasWorld rf_world rf_temp_file rf_src_doc].
  destruct (m w) as [r1 w1]. intros [= _ <-]. reflexivity.
Qed.

Lemma set_src_doc_keeps_temp_file (d : option Document) :
  preserves keeps_temp_file (set_src_doc d).
Proof. intros fr r fr' [= _ <-]. reflexivity. Qed.

#[local] Hint Resolve liftW_keeps_temp_file set_src_doc_keeps_temp_file : pres.

Lemma close_src_doc_keeps_temp_file : preserves keeps_temp_file close_src_doc.
Proof.
  unfold close_src_doc, Fitz.truthy.
  repeat (first [pres_step | solve [auto with pres]]).
Qed.

#[local] Hint Resolve close_src_doc_keeps_temp_file : pres.

Lemma rebuild_keeps_temp_file (p name : string) :
  preserves keeps_temp_file (rebuild p name).
Proof.
  unfold rebuild. apply preserves_try_finally; [apply _ | | auto with pres].
  repeat (first [pres_step | solve [auto with pres]]).
Qed.

Lemma install_repaired_keeps_temp_file (p name : string) :
  preserves keeps_temp_file (install_repaired p name).
Proof.
  unfold install_repaired.
  repeat (first [pres_step | solve [auto with pres]]).
Qed.

(** The direct open never raises. *)
Lemma direct_open_returns (p : string) : never_raises (direct_open p).
Proof.
  unfold direct_open. apply never_raises_handled. intros e w. eexists _, _. reflexivity.
Qed.

(** With [temp_file] assigned, the [finally] of line 410 completes. *)
Lemma cleanup_temp_file_returns (fr : RecFrame) (name : string) :
  rf_temp_file fr = Some name →
  ∃ fr', cleanup_temp_file fr = (Ok tt, fr').
Proof.
  destruct fr as [w t s]. cbn [rf_temp_file]. intros ->.
  unfold cleanup_temp_file, bind, temp_file_name, liftW, Os.exists_, gets, try_pass.
  cbn [get_world put_world RecFrame_HasWorld rf_world rf_temp_file rf_src_doc].
  destruct (Os.file_exists name w); [|eexists; reflexivity].
  cbn [get_world put_world RecFrame_HasWorld rf_world rf_temp_file rf_src_doc].
  destruct (Os.remove name w) as [r w']. eexists; reflexivity.
Qed.

(** Once the temporary file exists, [page_by_page_recovery] returns: a
    document or [None].  Together with [recovery_without_temp_file] this
    makes the failure of line 362 the one way for an exception to leave the
    function. *)
Lemma recovery_returns_with_temp_file (p : string) (w w1 w2 : World) (name : string) :
  direct_open p w = (Ok None, w1) →
  Os.named_temporary_file ".pdf" w1 = (Ok name, w2) →
  ∃ r w', page_by_page_recovery p w = (Ok r, w').
Proof.
  intros Hd Hn. unfold page_by_page_recovery, bind at 1. rewrite Hd.
  unfold bind at 1, with_frame, reconstruct, try_finally, try_except.
  unfold bind at 1, liftW at 1.
  cbn [get_world put_world RecFrame_HasWorld rf_world rf_temp_file rf_src_doc].
  rewrite Hn.
  unfold bind at 1, set_temp_file, modify.
  cbn [get_world put_world RecFrame_HasWorld rf_world rf_temp_file rf_src_doc].
  destruct ((set_src_doc None >> rebuild p name >> install_repaired p name)
              (mkRecFrame w2 (Some name) None)) as [r1 fr2] eqn:Hrest.
  assert (Hkeep : rf_temp_file fr2 = Some name).
  { assert (Hp : preserves keeps_temp_file
                   (set_src_doc None >> rebuild p name >> install_repaired p name)).
    { apply preserves_bind; [apply _ | auto with pres | intros _].
      apply preserves_bind; [apply _ | apply rebuild_keeps_temp_file | intros _].
      apply install_repaired_keeps_temp_file. }
    apply (Hp _ _ _ Hrest). }
  destruct r1 as [r|e].
  - destruct (cleanup_temp_file_returns fr2 name Hkeep) as (fr3 & ->).
    eexists _, _. reflexivity.
  - change (ret (S:=RecFrame) (@None Document) fr2) with (Ok (@None Document), fr2).
    cbv iota beta.
    destruct (cleanup_temp_file_returns fr2 name Hkeep) as (fr3 & ->).
    eexists _, _. reflexivity.
Qed.

(** * Further properties of the code *)

(** ** What an outcome can say *)

(** On a file that exists [optimize_pdf] returns, and the sizes it reports
    are the size it read on entry and a size that is not larger. *)
Lemma optimize_pdf_outcome_sizes (p : string) (params : Params) (rm : bool) (w : World)
    (bytes : string) :
  fs w !! p = Some bytes →
  ∃ out w', optimize_pdf p params rm w = (Ok out, w')
    ∧ original_size out = Os.size_of bytes
    ∧ (new_size out <= Os.size_of bytes)%N.
Proof.
  intros Hfs.
  destruct (prepare p (temp_path_for p w) params rm
              (mkOptFrame w (initial_result (Os.size_of bytes))))
    as [r1 [w1 res1]] eqn:Hprep.
  destruct (initial_verdict (mkOptFrame w (initial_result (Os.size_of bytes)))
              (mkOptFrame w1 res1) (Os.size_of bytes) eq_refl
              (prepare_same_verdict _ _ _ _ _ _ _ Hprep)) as (Hs & Ho & Hn).
  cbn [of_result] in Hs, Ho, Hn.
  destruct (optimize_pdf_after_prepare p params rm w bytes r1 w1 res1 Hfs Hprep)
    as (out & w' & Hrun & Hout).
  exists out, w'. split; [exact Hrun|].
  destruct r1 as [[|]|e].
  - rewrite commit_cases in Hout.
    destruct (fs w1 !! temp_path_for p w) as [tb|].
    + destruct (Os.size_of tb <? Os.size_of bytes) eqn:Hlt.
      * apply N.ltb_lt in Hlt.
        destruct (Os.entry_locked _ _ || Os.entry_locked _ _);
          destruct Hout as [-> _]; cbn; split; lia.
      * destruct (Os.entry_locked _ _); destruct Hout as [-> _]; cbn; split; lia.
    + destruct Hout as [-> _]. cbn. split; lia.
  - destruct Hout as [-> _]. split; lia.
  - destruct Hout as [-> _]. cbn. split; lia.
Qed.

(** ** The byte and repair totals of a run *)

Lemma books_refl_with (s s' : Stats) (a b o r : N) :
  (b <= a)%N → (r <= o)%N →
  original_size_bytes s' = original_size_bytes s + a →
  optimized_size_bytes s' = optimized_size_bytes s + b →
  optimized_files s' = optimized_files s + o →
  repaired_files s' = repaired_files s + r →
  books s s'.
Proof. intros. exists a, b, o, r. auto 10. Qed.

Lemma books_sound (s s' : Stats) : sound_totals s → books s s' → sound_totals s'.
Proof.
  intros [Hr Hb] (a & b & o & r & Hba & Hro & Ha & Hb' & Ho & Hr').
  unfold sound_totals. lia.
Qed.

Lemma optimize_and_book_books (p : string) (params : Params) (o : Options) (w : World)
    (st : Stats) (pr : gset string) (bytes : string) :
  fs w !! p = Some bytes →
  ∃ w' st', optimize_and_book p params o (mkLoopFrame w st pr)
            = (Ok tt, mkLoopFrame w' st' pr)
    ∧ ∃ b x r, (b <= Os.size_of bytes)%N ∧ (r <= x)%N
        ∧ original_size_bytes st' = original_size_bytes st
        ∧ optimized_size_bytes st' = optimized_size_bytes st + b
        ∧ optimized_files st' = optimized_files st + x
        ∧ repaired_files st' = repaired_files st + r.
Proof.
  intros Hfs. unfold optimize_and_book, bind at 1, liftW at 1.
  cbn [get_world put_world LoopFrame_HasWorld lf_world lf_stats lf_processed].
  destruct (optimize_pdf_outcome_sizes p params (repair_mode o) w bytes Hfs)
    as (out & w' & -> & Ho & Hn).
  destruct (success out).
  - destruct (repaired out).
    + eexists _, _. split; [reflexivity|].
      exists (new_size out), 1, 1. cbn. repeat split; lia.
    + eexists _, _. split; [reflexivity|].
      exists (new_size out), 1, 0. cbn. repeat split; lia.
  - eexists _, _. split; [reflexivity|].
    exists (original_size out), 0, 0. cbn. repeat split; lia.
Qed.

(** One candidate: what the loop body adds to the totals. *)
Lemma process_file_books (p : string) (params : Params) (o : Options) (w : World)
    (st : Stats) (pr : gset string) :
  ∃ w' st', process_file p params o (mkLoopFrame w st pr)
            = (Ok tt, mkLoopFrame w' st' pr)
    ∧ books st st'.
Proof.
  unfold process_file, try_except. unfold bind at 1. unfold liftW at 1, Os.exists_, gets.
  cbn [get_world put_world LoopFrame_HasWorld lf_world lf_stats lf_processed].
  unfold bind at 1. unfold liftW at 1, Os.access_R_OK, gets.
  cbn [get_world put_world LoopFrame_HasWorld lf_world lf_stats lf_processed].
  destruct (negb (Os.file_exists p w) || negb (Os.readable p w)).
  { eexists _, _. split; [reflexivity|].
    apply (books_refl_with _ _ 0 0 0 0); cbn; lia. }
  unfold bind at 1. rewrite read_size_cases.
  destruct (fs w !! p) as [bytes|] eqn:Hfs.
  2:{ eexists _, _. split; [reflexivity|].
      apply (books_refl_with _ _ 0 0 0 0); cbn; lia. }
  destruct (below_threshold (size_threshold_mb o) (Os.size_of bytes)).
  { eexists _, _. split; [reflexivity|].
    apply (books_refl_with _ _ (Os.size_of bytes) (Os.size_of bytes) 0 0); cbn; lia. }
  unfold bind at 1. rewrite disk_space_check_cases.
  assert (Hgo : ∃ w' st',
    (let (r, s') :=
       (make_backup p o >> optimize_and_book p params o)
         (mkLoopFrame w (add_original (Os.size_of bytes) st) pr) in
     match r with
     | Ok a => (Ok a, s')
     | Raise _ =>
         (update_stats incr_failed >>
          try_pass
            (let* there := liftW (Os.exists_ p) in
             if there
             then let* file_size := liftW (Os.getsize p) in
                  update_stats (add_optimized file_size)
             else ret tt)) s'
     end) = (Ok tt, mkLoopFrame w' st' pr)
    ∧ books st st').
  { unfold bind at 1.
    destruct (make_backup_world p o w (add_original (Os.size_of bytes) st) pr)
      as (w1 & -> & Hfs1 & _).
    rewrite Hfs in Hfs1.
    destruct (optimize_and_book_books p params o w1
                (add_original (Os.size_of bytes) st) pr bytes Hfs1)
      as (w' & st' & -> & b & x & r & Hb & Hr & Ho & Hos & Hx & Hrep).
    exists w', st'. split; [reflexivity|].
    apply (books_refl_with _ _ (Os.size_of bytes) b x r); cbn in *; lia. }
  destruct (disk_free w !! OsPath.dirname p) as [free|]; [|exact Hgo].
  destruct (free <? Os.size_of bytes * 2); [|exact Hgo].
  eexists _, _. split; [reflexivity|].
  apply (books_refl_with _ _ (Os.size_of bytes) (Os.size_of bytes) 0 0); cbn; lia.
Qed.

Lemma visit_file_sound (params : Params) (o : Options) (root file : string)
    (fr : LoopFrame) :
  sound_totals (lf_stats fr) →
  ∃ fr', visit_file params o root file fr = (Ok tt, fr') ∧ sound_totals (lf_stats fr').
Proof.
  intros Hs. unfold visit_file.
  destruct (negb (is_pdf_name file)); [exists fr; split; [reflexivity | exact Hs]|].
  unfold bind at 1, gets.
  destruct (bool_decide (OsPath.join root file ∈ lf_processed fr)
            || looks_temporary (OsPath.join root file));
    [exists fr; split; [reflexivity | exact Hs]|].
  unfold bind at 1, mark_processed, modify. unfold bind at 1, update_stats, modify.
  cbn [lf_world lf_stats lf_processed].
  destruct (process_file_books (OsPath.join root file) params o (lf_world fr)
              (incr_total (lf_stats fr)) ({[OsPath.join root file]} ∪ lf_processed fr))
    as (w' & st' & -> & Hb).
  eexists. split; [reflexivity|]. cbn [lf_stats].
  apply (books_sound (incr_total (lf_stats fr))); [exact Hs | exact Hb].
Qed.

(** Every run ends with sound totals. *)
Lemma run_sound_totals (walk : list (string * list string)) (o : Options) (w : World) :
  ∃ stats w', optimize_pdfs walk o w = (Ok stats, w') ∧ sound_totals stats.
Proof.
  unfold optimize_pdfs, bind, with_frame.
  destruct (for_each_invariant (λ fr, sound_totals (lf_stats fr))
              (λ entry, for_each (visit_file (params_for (compression_level o)) o (fst entry))
                          (snd entry))
              walk) with (s := mkLoopFrame w initial_stats ∅) as (fr' & -> & Hfr').
  - intros [root files] fr Hfr. apply for_each_invariant; [|exact Hfr].
    intros file fr0. apply visit_file_sound.
  - unfold sound_totals. cbn. lia.
  - eexists _, _. split; [reflexivity | exact Hfr'].
Qed.

(** X1. A run never reports more repaired files than optimized files: a
    repair is only counted for a file that was also counted as optimized. *)
Theorem X1_repaired_at_most_optimized (walk : list (string * list string)) (o : Options)
    (w : World) :
  ∃ stats w', optimize_pdfs walk o w = (Ok stats, w')
    ∧ (repaired_files stats <= optimized_files stats)%N.
Proof.
  destruct (run_sound_totals walk o w) as (stats & w' & Hrun & Hr & _). eauto.
Qed.


Lemma reduction_percent_bounds (s : Stats) :
  (optimized_size_bytes s <= original_size_bytes s)%N →
  (0 <= overall_reduction_percent s)%Q ∧ (overall_reduction_percent s <= inject_Z 100)%Q.
Proof.
  intros Hle. unfold overall_reduction_percent.
  destruct (0 <? original_size_bytes s) eqn:Hpos.
  2:{ split; [apply Qle_refl | discriminate]. }
  apply N.ltb_lt in Hpos.
  set (y := Z.of_N (original_size_bytes s)).
  set (d := (y - Z.of_N (optimized_size_bytes s))%Z).
  assert (Hy : (0 < inject_Z y)%Q) by (unfold Qlt; cbn; subst y; lia).
  assert (Hd0 : (0 <= inject_Z d)%Q) by (unfold Qle; cbn; subst d y; lia).
  assert (Hdy : (inject_Z d <= inject_Z y)%Q) by (rewrite <- Zle_Qle; subst d y; lia).
  assert (H100 : (0 <= inject_Z 100)%Q) by (unfold Qle; cbn; lia).
  assert (Hq0 : (0 <= inject_Z d / inject_Z y)%Q).
  { apply Qle_shift_div_l; [exact Hy|]. rewrite Qmult_0_l. exact Hd0. }
  assert (Hq1 : (inject_Z d / inject_Z y <= 1)%Q).
  { apply Qle_shift_div_r; [exact Hy|]. rewrite Qmult_1_l. exact Hdy. }
  split.
  - apply Qmult_le_0_compat; assumption.
  - apply Qle_trans with (1 * inject_Z 100)%Q.
    + apply Qmult_le_compat_r; assumption.
    + rewrite Qmult_1_l. apply Qle_refl.
Qed.


(** ** Which paths a run counts *)

Lemma candidates_in_nil (root : string) : candidates_in root [] = ∅.
Proof. reflexivity. Qed.

Lemma candidates_in_cons (root file : string) (files : list string) :
  candidates_in root (file :: files)
  = (if is_pdf_name file && negb (looks_temporary (OsPath.join root file))
     then {[OsPath.join root file]} else ∅) ∪ candidates_in root files.
Proof.
  unfold candidates_in. cbn [List.filter].
  destruct (is_pdf_name file); cbn [andb map List.filter].
  - destruct (looks_temporary (OsPath.join root file)); cbn [negb list_to_set].
    + now rewrite union_empty_l_L.
    + reflexivity.
  - now rewrite union_empty_l_L.
Qed.

Lemma visit_file_processed (params : Params) (o : Options) (root file : string)
    (fr : LoopFrame) :
  counts_processed fr →
  ∃ fr', visit_file params o root file fr = (Ok tt, fr')
    ∧ lf_processed fr' = lf_processed fr ∪ candidates_in root [file]
    ∧ counts_processed fr'.
Proof.
  intros Hc. unfold visit_file. rewrite candidates_in_cons, candidates_in_nil.
  destruct (is_pdf_name file); cbn [negb andb].
  2:{ exists fr. split; [reflexivity|].
      split; [now rewrite !union_empty_r_L | exact Hc]. }
  unfold bind at 1, gets.
  destruct (bool_decide (OsPath.join root file ∈ lf_processed fr)) eqn:Hin.
  { apply bool_decide_eq_true in Hin. cbn [orb].
    exists fr. split; [reflexivity|]. split; [|exact Hc].
    destruct (looks_temporary _); cbn [negb]; rewrite !union_empty_r_L; [reflexivity|].
    rewrite union_comm_L. symmetry. apply subseteq_union_1_L.
    now apply singleton_subseteq_l. }
  apply bool_decide_eq_false in Hin. cbn [orb].
  destruct (looks_temporary (OsPath.join root file)); cbn [negb].
  { exists fr. split; [reflexivity|].
    split; [now rewrite !union_empty_r_L | exact Hc]. }
  unfold bind at 1, mark_processed, modify. unfold bind at 1, update_stats, modify.
  cbn [lf_world lf_stats lf_processed].
  destruct (process_file_counts (OsPath.join root file) params o
              (mkLoopFrame (lf_world fr) (incr_total (lf_stats fr))
                 ({[OsPath.join root file]} ∪ lf_processed fr)))
    as (fr' & -> & [Htot _] & Hpr).
  cbn [lf_stats lf_processed] in Htot, Hpr.
  exists fr'. split; [reflexivity|].
  split; [rewrite Hpr, union_empty_r_L; apply union_comm_L|].
  unfold counts_processed in *. rewrite Htot, Hpr. cbn [total_files incr_total].
  rewrite size_union by (now apply disjoint_singleton_l). rewrite size_singleton. lia.
Qed.

Lemma for_each_visit_processed (params : Params) (o : Options) (root : string)
    (files : list string) (fr : LoopFrame) :
  counts_processed fr →
  ∃ fr', for_each (visit_file params o root) files fr = (Ok tt, fr')
    ∧ lf_processed fr' = lf_processed fr ∪ candidates_in root files
    ∧ counts_processed fr'.
Proof.
  revert fr. induction files as [|file files IH]; intros fr Hc.
  - exists fr. split; [reflexivity|]. rewrite candidates_in_nil, union_empty_r_L. auto.
  - cbn [for_each]. unfold bind.
    destruct (visit_file_processed params o root file fr Hc) as (fr1 & -> & Hp1 & Hc1).
    destruct (IH fr1 Hc1) as (fr2 & -> & Hp2 & Hc2).
    exists fr2. split; [reflexivity|]. split; [|exact Hc2].
    rewrite Hp2, Hp1. rewrite (candidates_in_cons root file files).
    rewrite candidates_in_cons, candidates_in_nil, union_empty_r_L.
    now rewrite union_assoc_L.
Qed.

Lemma run_loop_processed (walk : list (string * list string)) (params : Params)
    (o : Options) (fr : LoopFrame) :
  counts_processed fr →
  ∃ fr', for_each (λ entry, for_each (visit_file params o (fst entry)) (snd entry)) walk fr
         = (Ok tt, fr')
    ∧ lf_processed fr' = lf_processed fr ∪ candidate_paths walk
    ∧ counts_processed fr'.
Proof.
  revert fr. induction walk as [|[root files] walk IH]; intros fr Hc.
  - exists fr. split; [reflexivity|]. cbn [candidate_paths].
    rewrite union_empty_r_L. auto.
  - cbn [for_each fst snd]. unfold bind.
    destruct (for_each_visit_processed params o root files fr Hc) as (fr1 & -> & Hp1 & Hc1).
    destruct (IH fr1 Hc1) as (fr2 & -> & Hp2 & Hc2).
    exists fr2. split; [reflexivity|]. split; [|exact Hc2].
    rewrite Hp2, Hp1. cbn [candidate_paths fst snd]. now rewrite union_assoc_L.
Qed.

(** X4. A run counts every distinct candidate path exactly once:
    total_files is the number of different paths of the walk whose file name
    ends in ".pdf" (any case) and that do not contain ".temp_optimized.pdf",
    however often the walk lists a path. *)
Theorem X4_total_counts_distinct_candidates (walk : list (string * list string))
    (o : Options) (w : World) :
  ∃ stats w', optimize_pdfs walk o w = (Ok stats, w')
    ∧ total_files stats = N.of_nat (size (candidate_paths walk)).
Proof.
  unfold optimize_pdfs, bind, with_frame.
  destruct (run_loop_processed walk (params_for (compression_level o)) o
              (mkLoopFrame w initial_stats ∅)) as (fr' & -> & Hp & Hc); [reflexivity|].
  eexists _, _. split; [reflexivity|]. cbn [snd].
  unfold counts_processed in Hc. rewrite Hc, Hp. cbn [lf_processed].
  now rewrite union_empty_l_L.
Qed.

(** ** The pre-filters of the loop body *)

Lemma size_mb_lt (n : N) (q : Q) :
  (size_mb n < q)%Q ↔ (inject_Z (Z.of_N n) < q * inject_Z 1048576)%Q.
Proof.
  unfold size_mb, Qlt, Qmult, inject_Z. cbn [Qnum Qden].
  rewrite Pos.mul_1_r. lia.
Qed.

Lemma Qlt_bool_spec (a b : Q) : Qlt_bool a b = true ↔ (a < b)%Q.
Proof.
  unfold Qlt_bool. rewrite negb_true_iff. split.
  - intros H. apply Qnot_le_lt. intros Hle.
    apply Qle_bool_iff in Hle. congruence.
  - intros H. destruct (Qle_bool b a) eqn:Hle; [|reflexivity].
    apply Qle_bool_iff in Hle. exfalso. eapply Qlt_not_le; eassumption.
Qed.


(** X6. A candidate that is missing or not readable is booked as failed and
    nothing else happens: no byte total moves, no backup is made, the engine
    is not called and the world is as it was. *)
Theorem X6_unreadable_is_failed_untouched (p : string) (params : Params) (o : Options)
    (w : World) (st : Stats) (pr : gset string) :
  Os.readable p w = false →
  process_file p params o (mkLoopFrame w st pr)
  = (Ok tt, mkLoopFrame w (incr_failed st) pr).
Proof.
  intros Hr.
  unfold process_file, try_except. unfold bind at 1. unfold liftW at 1, Os.exists_, gets.
  cbn [get_world put_world LoopFrame_HasWorld lf_world lf_stats lf_processed].
  unfold bind at 1. unfold liftW at 1, Os.access_R_OK, gets.
  cbn [get_world put_world LoopFrame_HasWorld lf_world lf_stats lf_processed].
  rewrite Hr. cbn [negb]. rewrite orb_true_r. reflexivity.
Qed.

Lemma X6_unreadable_is_failed_untouched_witness :
  process_file "/d/gone.pdf" (params_for 1) Examples.medium
    (mkLoopFrame (Examples.world_with [] []) initial_stats ∅)
  = (Ok tt, mkLoopFrame (Examples.world_with [] []) (incr_failed initial_stats) ∅).
Proof.
  apply (X6_unreadable_is_failed_untouched "/d/gone.pdf" (params_for 1) Examples.medium
           (Examples.world_with [] []) initial_stats ∅).
  vm_compute. reflexivity.
Defined.

(** X7. A readable candidate stopped by the size threshold or by the
    disk-space check is booked as skipped, its size is added to the original
    and to the optimized byte total, and nothing else happens: no backup, no
    call to the engine, the world is as it was. *)
Theorem X7_skipped_is_untouched (p : string) (params : Params) (o : Options)
    (w : World) (st : Stats) (pr : gset string) (bytes : string) :
  fs w !! p = Some bytes →
  Os.readable p w = true →
  below_threshold (size_threshold_mb o) (Os.size_of bytes) = true
  ∨ passes_disk_check p (Os.size_of bytes) w = false →
  process_file p params o (mkLoopFrame w st pr)
  = (Ok tt,
     mkLoopFrame w
       (add_optimized (Os.size_of bytes)
          (incr_skipped (add_original (Os.size_of bytes) st))) pr).
Proof.
  intros Hfs Hr Hskip.
  unfold process_file, try_except. unfold bind at 1. unfold liftW at 1, Os.exists_, gets.
  cbn [get_world put_world LoopFrame_HasWorld lf_world lf_stats lf_processed].
  unfold bind at 1. unfold liftW at 1, Os.access_R_OK, gets.
  cbn [get_world put_world LoopFrame_HasWorld lf_world lf_stats lf_processed].
  rewrite (file_exists_Some p w bytes Hfs), Hr. cbn [negb orb].
  unfold bind at 1. rewrite read_size_cases, Hfs.
  destruct (below_threshold (size_threshold_mb o) (Os.size_of bytes)) eqn:Hthr;
    [reflexivity|].
  destruct Hskip as [Hthr' | Hdisk]; [discriminate|].
  unfold bind at 1. rewrite disk_space_check_cases.
  unfold passes_disk_check in Hdisk.
  destruct (disk_free w !! OsPath.dirname p) as [free|]; [|discriminate].
  apply negb_false_iff in Hdisk. rewrite Hdisk. reflexivity.
Qed.

Lemma X7_skipped_is_untouched_witness :
  process_file "/d/a.pdf" (params_for 1) Examples.above_5mb
    (mkLoopFrame (Examples.world_with [inr Examples.two_pages] []) initial_stats ∅)
  = (Ok tt,
     mkLoopFrame (Examples.world_with [inr Examples.two_pages] [])
       (add_optimized 10 (incr_skipped (add_original 10 initial_stats))) ∅).
Proof.
  apply (X7_skipped_is_untouched "/d/a.pdf" (params_for 1) Examples.above_5mb
           (Examples.world_with [inr Examples.two_pages] []) initial_stats ∅ "0123456789").
  - vm_compute. reflexivity.
  - vm_compute. reflexivity.
  - left. vm_compute. reflexivity.
Defined.

(** ** What [optimize_pdf] leaves alone *)

Lemma basename_append (p s : string) :
  OsPath.has_sep s = false → OsPath.basename (p +:+ s) = OsPath.basename p +:+ s.
Proof.
  intros Hs. induction p as [|c p IH].
  - cbn. now apply basename_id.
  - rewrite append_cons. cbn [OsPath.basename]. rewrite has_sep_app, Hs, orb_false_r.
    destruct (OsPath.has_sep p); [exact IH|].
    destruct (OsPath.is_sep c); [reflexivity | now rewrite append_cons].
Qed.

(** The temporary path is no sibling [p ++ s] of the file for a short
    suffix, such as the backup [p ++ ".backup"]. *)
Lemma temp_path_ne_sibling (p s : string) (w : World) :
  OsPath.has_sep s = false → (String.length s < 16)%nat →
  temp_path_for p w ≠ p +:+ s.
Proof.
  intros Hs Hlen Heq.
  assert (Hb : OsPath.basename (temp_path_for p w) = temp_filename_for p w)
    by (apply basename_join, temp_filename_no_sep).
  rewrite Heq, (basename_append p s Hs) in Hb.
  apply (f_equal String.length) in Hb.
  unfold temp_filename_for in Hb. rewrite !length_append in Hb. simpl in Hb. lia.
Qed.

Lemma save_document_keeps_other (q p temp : string) (params : Params) (rm : bool)
    (doc : Document) :
  temp ≠ q → preserves (keeps_file q) (save_document p temp params rm doc).
Proof.
  intros Hne. unfold save_document.
  repeat (first [pres_step | solve [auto with pres]]).
Qed.

(** Lines 177-188 when the repair pipeline is not entered: no file
    changes. *)
Lemma open_document_fs (p : string) (rm : bool) (fr fr' : OptFrame) (r : Res Document) :
  repair_not_entered rm (of_world fr) →
  Os.file_exists p (of_world fr) = true →
  open_document p rm fr = (r, fr') →
  fs (of_world fr') = fs (of_world fr).
Proof.
  destruct fr as [w res]. cbn [of_world]. intros Hrep Hex.
  unfold open_document, try_except, liftW.
  cbn [get_world put_world OptFrame_HasWorld of_world of_result].
  destruct (Fitz.open p w) as [[doc|e] w1] eqn:Hopen.
  - intros [= _ <-]. cbn [of_world]. exact (open_fs _ _ _ _ Hopen).
  - destruct Hrep as [-> | (d & rest & Hans)].
    + intros [= _ <-]. cbn [of_world]. exact (open_fs _ _ _ _ Hopen).
    + exfalso. unfold Fitz.open in Hopen.
      replace (Os.file_exists p (log_call (COpen p) w)) with true in Hopen
        by (symmetry; exact Hex).
      cbn [negb open_answers log_call] in Hopen. rewrite Hans in Hopen. discriminate.
Qed.

Lemma prepare_keeps_other (q p temp : string) (params : Params) (rm : bool)
    (fr fr' : OptFrame) (r : Res bool) :
  temp ≠ q →
  repair_not_entered rm (of_world fr) →
  Os.file_exists p (of_world fr) = true →
  prepare p temp params rm fr = (r, fr') →
  keeps_file q fr fr'.
Proof.
  intros Hne Hrep Hex. unfold prepare. unfold bind at 1.
  destruct (open_document p rm fr) as [[doc|e] fr1] eqn:Hopen.
  - intros Hrest. transitivity fr1.
    + unfold keeps_file, keeps_file_w.
      now rewrite (open_document_fs p rm fr fr1 _ Hrep Hex Hopen).
    + revert Hrest. generalize fr1 r fr'.
      change (preserves (keeps_file q)
                (if is_encrypted doc
                 then Fitz.close doc >> set_result (with_error "PDF is encrypted") >> ret false
                 else
                   let* pdf_document := save_document p temp params rm doc in
                   try_pass (Fitz.close pdf_document) >>
                   (let* there := liftW (Os.exists_ temp) in
                    if negb there
                    then raise (mkExn PlainException
                                  ("Temporary optimized file was not created: " +:+ temp))
                    else ret true))).
      destruct (is_encrypted doc).
      * repeat (first [pres_step | solve [auto with pres]]).
      * apply preserves_bind; [apply _ | now apply save_document_keeps_other | intros d'].
        repeat (first [pres_step | solve [auto with pres]]).
  - intros [= _ <-]. unfold keeps_file, keeps_file_w.
    now rewrite (open_document_fs p rm fr fr1 _ Hrep Hex Hopen).
Qed.

(** Without the repair pipeline, [optimize_pdf] changes at most the file
    and its temporary file. *)
Lemma optimize_pdf_keeps_other (p q : string) (params : Params) (rm : bool)
    (w w' : World) (r : Res FileOutcome) :
  repair_not_entered rm w →
  optimize_pdf p params rm w = (r, w') →
  q ≠ p → q ≠ temp_path_for p w →
  fs w' !! q = fs w !! q.
Proof.
  intros Hrep Hrun Hqp Hqt.
  destruct (fs w !! p) as [bytes|] eqn:Hfs.
  2:{ unfold optimize_pdf, bind at 1, Os.getsize in Hrun. rewrite Hfs in Hrun.
      now injection Hrun as _ <-. }
  assert (Hne : temp_path_for p w ≠ q) by congruence.
  destruct (prepare p (temp_path_for p w) params rm
              (mkOptFrame w (initial_result (Os.size_of bytes))))
    as [r1 [w1 res1]] eqn:Hprep.
  assert (Hkeep : fs w1 !! q = fs w !! q).
  { apply (prepare_keeps_other q p (temp_path_for p w) params rm
             (mkOptFrame w (initial_result (Os.size_of bytes))) (mkOptFrame w1 res1) r1
             Hne Hrep (file_exists_Some p w bytes Hfs) Hprep). }
  destruct (optimize_pdf_after_prepare p params rm w bytes r1 w1 res1 Hfs Hprep)
    as (out & w'' & Hrun' & Hout).
  rewrite Hrun in Hrun'. injection Hrun' as -> <-.
  destruct r1 as [[|]|e].
  - rewrite commit_cases in Hout.
    destruct (fs w1 !! temp_path_for p w) as [tb|].
    + destruct (Os.size_of tb <? Os.size_of bytes).
      * destruct (Os.entry_locked _ _ || Os.entry_locked _ _).
        -- destruct Hout as [_ Hother]. now rewrite Hother.
        -- destruct Hout as [_ ->]. cbn.
           rewrite lookup_insert_ne by congruence.
           now rewrite lookup_delete_ne.
      * destruct (Os.entry_locked _ _).
        -- destruct Hout as [_ Hother]. now rewrite Hother.
        -- destruct Hout as [_ ->]. cbn. now rewrite lookup_delete_ne.
    + destruct Hout as [_ Hother]. now rewrite Hother.
  - destruct Hout as [_ ->]. exact Hkeep.
  - destruct Hout as [_ Hother]. now rewrite Hother.
Qed.

(** X8. When it does not enter the repair pipeline (repair mode off, or the
    direct open succeeds), [optimize_pdf] changes no file but the one it is
    given and its own temporary file: every other path holds afterwards what
    it held before, whether the function returns or raises. *)
Theorem X8_other_files_untouched (p : string) (params : Params) (rm : bool)
    (w w' : World) (r : Res FileOutcome) :
  repair_not_entered rm w →
  optimize_pdf p params rm w = (r, w') →
  ∀ q, q ≠ p → q ≠ temp_path_for p w → fs w' !! q = fs w !! q.
Proof.
  intros Hrep Hrun q Hqp Hqt.
  exact (optimize_pdf_keeps_other p q params rm w w' r Hrep Hrun Hqp Hqt).
Qed.

Lemma X8_other_files_untouched_witness :
  ∃ out w',
    optimize_pdf "/d/a.pdf" (params_for 1) false MoreExamples.two_files = (Ok out, w')
    ∧ fs w' !! "/d/b.pdf" = Some "another file".
Proof.
  destruct (optimize_pdf "/d/a.pdf" (params_for 1) false MoreExamples.two_files)
    as [[out|e] w'] eqn:Hrun; [|vm_compute in Hrun; discriminate].
  exists out, w'. split; [reflexivity|].
  rewrite (X8_other_files_untouched "/d/a.pdf" (params_for 1) false
             MoreExamples.two_files w' (Ok out) (or_introl eq_refl) Hrun "/d/b.pdf").
  - reflexivity.
  - discriminate.
  - assert (Ht : temp_path_for "/d/a.pdf" MoreExamples.two_files
                 = "/d/.temp_opt_a.pdf_7_42.pdf") by (vm_compute; reflexivity).
    rewrite Ht. discriminate.
Defined.

(** ** Backups *)

Lemma make_backup_copies (p : string) (o : Options) (w : World) (st : Stats)
    (pr : gset string) (bytes : string) :
  backup o = true →
  fs w !! p = Some bytes →
  Os.readable p w = true →
  Os.entry_locked (p +:+ ".backup") w = false →
  make_backup p o (mkLoopFrame w st pr)
  = (Ok tt, mkLoopFrame (set_fs (<[p +:+ ".backup" := bytes]>) w) st pr).
Proof.
  intros Hb Hfs Hr Hl. unfold make_backup. rewrite Hb.
  unfold try_except, liftW, Os.copy2.
  cbn [get_world put_world LoopFrame_HasWorld lf_world lf_stats lf_processed].
  rewrite Hfs, Hl.
  unfold Os.readable in Hr. apply andb_true_iff in Hr as [_ Hr].
  apply bool_decide_eq_true in Hr.
  rewrite (bool_decide_eq_false_2 _ Hr). reflexivity.
Qed.

(** X9. With backups on, a candidate that reaches the optimizer (readable,
    not skipped) and whose backup path can be written has, after the loop
    body, the bytes it held before at [path + ".backup"], whatever was at
    that path and whether or not the optimizer replaced the file (repair
    pipeline not entered). *)
Theorem X9_backup_holds_original (p : string) (params : Params) (o : Options)
    (w : World) (st : Stats) (pr : gset string) (bytes : string) :
  backup o = true →
  fs w !! p = Some bytes →
  Os.readable p w = true →
  Os.entry_locked (p +:+ ".backup") w = false →
  below_threshold (size_threshold_mb o) (Os.size_of bytes) = false →
  passes_disk_check p (Os.size_of bytes) w = true →
  repair_not_entered (repair_mode o) w →
  ∃ w' st',
    process_file p params o (mkLoopFrame w st pr) = (Ok tt, mkLoopFrame w' st' pr)
    ∧ fs w' !! (p +:+ ".backup") = Some bytes.
Proof.
  intros Hb Hfs Hread Hlock Hthr Hdisk Hrep.
  unfold process_file, try_except. unfold bind at 1. unfold liftW at 1, Os.exists_, gets.
  cbn [get_world put_world LoopFrame_HasWorld lf_world lf_stats lf_processed].
  unfold bind at 1. unfold liftW at 1, Os.access_R_OK, gets.
  cbn [get_world put_world LoopFrame_HasWorld lf_world lf_stats lf_processed].
  rewrite (file_exists_Some p w bytes Hfs), Hread. cbn [negb orb].
  unfold bind at 1. rewrite read_size_cases, Hfs, Hthr.
  assert (Hdsc : disk_space_check p (Os.size_of bytes)
                    (mkLoopFrame w (add_original (Os.size_of bytes) st) pr)
                  = (Ok false, mkLoopFrame w (add_original (Os.size_of bytes) st) pr)).
  { rewrite disk_space_check_cases. unfold passes_disk_check in Hdisk.
    destruct (disk_free w !! OsPath.dirname p) as [free|]; [|reflexivity].
    apply negb_true_iff in Hdisk. now rewrite Hdisk. }
  unfold bind at 1. rewrite Hdsc.
  unfold bind at 1.
  rewrite (make_backup_copies p o w _ pr bytes Hb Hfs Hread Hlock).
  set (w1 := set_fs (<[p +:+ ".backup" := bytes]>) w).
  assert (Hfs1 : fs w1 !! p = Some bytes).
  { subst w1. cbn. rewrite lookup_insert_ne; [exact Hfs|].
    now apply append_suffix_ne. }
  unfold optimize_and_book, bind at 1, liftW at 1.
  cbn [get_world put_world LoopFrame_HasWorld lf_world lf_stats lf_processed].
  destruct (optimize_pdf p params (repair_mode o) w1) as [[out|e] w'] eqn:Hrun.
  2:{ exfalso.
      destruct (optimize_pdf_outcome_sizes p params (repair_mode o) w1 bytes Hfs1)
        as (out & w'' & Hrun' & _).
      rewrite Hrun in Hrun'. discriminate. }
  assert (Hbk : fs w' !! (p +:+ ".backup") = Some bytes).
  { rewrite (optimize_pdf_keeps_other p (p +:+ ".backup") params (repair_mode o)
               w1 w' (Ok out) Hrep Hrun).
    - subst w1. cbn. apply lookup_insert_eq.
    - now apply append_suffix_ne.
    - intros Heq. symmetry in Heq. revert Heq.
      apply (temp_path_ne_sibling p ".backup" w1); [reflexivity | cbn; lia]. }
  destruct (success out); [destruct (repaired out)|];
    (eexists _, _; split; [reflexivity | exact Hbk]).
Qed.

Lemma X9_backup_holds_original_witness :
  ∃ w' st',
    process_file "/d/a.pdf" (params_for 1) MoreExamples.with_backup
      (mkLoopFrame MoreExamples.stale_backup initial_stats ∅)
    = (Ok tt, mkLoopFrame w' st' ∅)
    ∧ fs w' !! "/d/a.pdf.backup" = Some "0123456789".
Proof.
  apply (X9_backup_holds_original "/d/a.pdf" (params_for 1) MoreExamples.with_backup
           MoreExamples.stale_backup initial_stats ∅ "0123456789").
  - reflexivity.
  - vm_compute. reflexivity.
  - vm_compute. reflexivity.
  - vm_compute. reflexivity.
  - vm_compute. reflexivity.
  - vm_compute. reflexivity.
  - left. reflexivity.
Defined.

(** ** Without repair mode *)

Lemma open_log (q : string) (w w' : World) (r : Res Document) :
  Fitz.open q w = (r, w') → engine_log w' = (engine_log w ++ [COpen q])%list.
Proof.
  unfold Fitz.open. destruct (negb _); [intros [= _ <-]; reflexivity|].
  cbn [open_answers log_call].
  destruct (open_answers w) as [|[e|d] rest]; intros [= _ <-]; reflexivity.
Qed.



(** What [optimize_pdf] does after [prepare], as far as the engine and the
    [repaired] flag go: nothing. *)
Lemma optimize_pdf_after_prepare_log (p : string) (params : Params) (rm : bool)
    (w : World) (bytes : string) (r1 : Res bool) (w1 : World) (res1 : FileOutcome) :
  fs w !! p = Some bytes →
  prepare p (temp_path_for p w) params rm
    (mkOptFrame w (initial_result (Os.size_of bytes))) = (r1, mkOptFrame w1 res1) →
  ∃ out w', optimize_pdf p params rm w = (Ok out, w')
    ∧ engine_log w' = engine_log w1
    ∧ repaired out = repaired res1.
Proof.
  intros Hfs Hprep.
  unfold optimize_pdf. unfold bind at 1. unfold Os.getsize. rewrite Hfs.
  unfold bind at 1, gets. unfold bind at 1, with_frame, try_except, try_body.
  unfold bind at 1. rewrite Hprep.
  destruct r1 as [[|]|e].
  - rewrite commit_cases.
    destruct (fs w1 !! temp_path_for p w) as [tb|].
    + destruct (Os.size_of tb <? Os.size_of bytes).
      * destruct (Os.entry_locked _ _ || Os.entry_locked _ _).
        -- destruct (on_error_returns (temp_path_for p w)
                       (mkExn PlainException
                          "Failed to replace original file: Permission denied")
                       (mkOptFrame w1 res1)) as (w' & -> & Hlog & _).
           eexists _, _. split; [reflexivity|]. split; [exact Hlog | reflexivity].
        -- eexists _, _. split; [reflexivity|]. split; reflexivity.
      * destruct (Os.entry_locked _ _).
        -- destruct (on_error_returns (temp_path_for p w)
                       (mkExn OSError "Permission denied")
                       (mkOptFrame w1 res1)) as (w' & -> & Hlog & _).
           eexists _, _. split; [reflexivity|]. split; [exact Hlog | reflexivity].
        -- eexists _, _. split; [reflexivity|]. split; reflexivity.
    + destruct (on_error_returns (temp_path_for p w)
                  (mkExn OSError "No such file or directory")
                  (mkOptFrame w1 res1)) as (w' & -> & Hlog & _).
      eexists _, _. split; [reflexivity|]. split; [exact Hlog | reflexivity].
  - eexists _, _. split; [reflexivity|]. split; reflexivity.
  - destruct (on_error_returns (temp_path_for p w) e (mkOptFrame w1 res1))
      as (w' & -> & Hlog & _).
    eexists _, _. split; [reflexivity|]. split; [exact Hlog | reflexivity].
Qed.

(** Lines 176-243 with repair mode off: one open, at most one save, and
    [repaired] is not touched. *)
Lemma prepare_without_repair (p temp : string) (params : Params) (w w1 : World)
    (res res1 : FileOutcome) (r1 : Res bool) :
  prepare p temp params false (mkOptFrame w res) = (r1, mkOptFrame w1 res1) →
  repaired res1 = repaired res
  ∧ (engine_log w1 = (engine_log w ++ [COpen p])%list
     ∨ engine_log w1
       = (engine_log w
          ++ [COpen p;
              CSave temp (mkSaveOptions false (garbage params) (deflate params)
                            (clean params))])%list).
Proof.
  unfold prepare. unfold bind at 1. unfold open_document, try_except at 1, liftW at 1.
  cbn [get_world put_world OptFrame_HasWorld of_world of_result].
  destruct (Fitz.open p w) as [[doc|e] w0] eqn:Hopen;
    pose proof (open_log _ _ _ _ Hopen) as Hlog0.
  2:{ cbn [negb raise]. intros [= _ <- <-]. split; [reflexivity | left; exact Hlog0]. }
  destruct (is_encrypted doc).
  { unfold bind, Fitz.close, set_result, modify, ret, raise.
    destruct (doc_closed doc); intros [= _ <- <-];
      (split; [reflexivity | left; exact Hlog0]). }
  unfold bind at 1, save_document, try_except at 1. unfold bind at 1, liftW at 1.
  cbn [get_world put_world OptFrame_HasWorld of_world of_result].
  destruct (Fitz.save doc temp
              (mkSaveOptions false (garbage params) (deflate params) (clean params)) w0)
    as [[[]|e] w2] eqn:Hsave; pose proof (save_log _ _ _ _ _ _ Hsave) as Hlog2.
  2:{ cbn [negb raise]. intros [= _ <- <-]. split; [reflexivity|].
      right. rewrite Hlog2, Hlog0, <- app_assoc. reflexivity. }
  cbn [ret]. unfold bind at 1, try_pass. unfold bind at 1, liftW at 1, Os.exists_, gets.
  assert (Hl : engine_log w2
               = (engine_log w
                  ++ [COpen p;
                      CSave temp (mkSaveOptions false (garbage params) (deflate params)
                                    (clean params))])%list)
    by (rewrite Hlog2, Hlog0, <- app_assoc; reflexivity).
  destruct (Fitz.close (S:=OptFrame) doc (mkOptFrame w2 res)) as [rc frc] eqn:Hclose.
  assert (Hfrc : frc = mkOptFrame w2 res).
  { unfold Fitz.close, raise, ret in Hclose.
    destruct (doc_closed doc); now injection Hclose as _ <-. }
  subst frc. cbn [get_world put_world OptFrame_HasWorld of_world of_result].
  destruct (negb (Os.file_exists temp w2)); intros [= _ <- <-];
    (split; [reflexivity | right; exact Hl]).
Qed.

(** X11. With repair mode off, [optimize_pdf] asks the engine for one open
    of the file and at most one save, in that order; the save is the
    standard one and its target is the temporary path, never the file
    itself; and no outcome is marked repaired. *)
Theorem X11_engine_calls_without_repair (p : string) (params : Params) (w w' : World)
    (r : Res FileOutcome) :
  optimize_pdf p params false w = (r, w') →
  (∃ calls,
     engine_log w' = (engine_log w ++ calls)%list
     ∧ (calls = []
        ∨ calls = [COpen p]
        ∨ calls = [COpen p;
                   CSave (temp_path_for p w)
                     (mkSaveOptions false (garbage params) (deflate params)
                        (clean params))]))
  ∧ temp_path_for p w ≠ p
  ∧ ∀ out, r = Ok out → repaired out = false.
Proof.
  intros Hrun.
  split; [|split; [apply temp_path_ne|]].
  - destruct (fs w !! p) as [bytes|] eqn:Hfs.
    2:{ unfold optimize_pdf, bind at 1, Os.getsize in Hrun. rewrite Hfs in Hrun.
        injection Hrun as _ <-. exists []. rewrite app_nil_r. auto. }
    destruct (prepare p (temp_path_for p w) params false
                (mkOptFrame w (initial_result (Os.size_of bytes))))
      as [r1 [w1 res1]] eqn:Hprep.
    destruct (optimize_pdf_after_prepare_log p params false w bytes r1 w1 res1 Hfs Hprep)
      as (out & w'' & Hrun' & Hlog & _).
    rewrite Hrun in Hrun'. injection Hrun' as _ <-.
    destruct (prepare_without_repair _ _ _ _ _ _ _ _ Hprep) as [_ [Hl | Hl]];
      rewrite Hlog, Hl; eexists; split; [reflexivity | auto | reflexivity | auto].
  - intros out ->.
    destruct (fs w !! p) as [bytes|] eqn:Hfs.
    2:{ unfold optimize_pdf, bind at 1, Os.getsize in Hrun. rewrite Hfs in Hrun.
        discriminate. }
    destruct (prepare p (temp_path_for p w) params false
                (mkOptFrame w (initial_result (Os.size_of bytes))))
      as [r1 [w1 res1]] eqn:Hprep.
    destruct (optimize_pdf_after_prepare_log p params false w bytes r1 w1 res1 Hfs Hprep)
      as (out' & w'' & Hrun' & _ & Hrep).
    rewrite Hrun in Hrun'. injection Hrun' as <- _.
    destruct (prepare_without_repair _ _ _ _ _ _ _ _ Hprep) as [Hr _].
    rewrite Hrep, Hr. reflexivity.
Qed.

Lemma X11_engine_calls_without_repair_witness :
  ∃ out w',
    optimize_pdf "/d/a.pdf" (params_for 1) false Examples.shrinking_world = (Ok out, w')
    ∧ engine_log w'
      = [COpen "/d/a.pdf";
         CSave "/d/.temp_opt_a.pdf_7_42.pdf" (mkSaveOptions false 3 true true)]
    ∧ repaired out = false.
Proof.
  destruct (optimize_pdf "/d/a.pdf" (params_for 1) false Examples.shrinking_world)
    as [[out|e] w'] eqn:Hrun; [|vm_compute in Hrun; discriminate].
  destruct (X11_engine_calls_without_repair "/d/a.pdf" (params_for 1)
              Examples.shrinking_world w' (Ok out) Hrun)
    as ((calls & Hlog & Hcalls) & _ & Hrep).
  exists out, w'. split; [reflexivity|]. split; [|apply Hrep; reflexivity].
  assert (Hdirect : engine_log w'
                    = [COpen "/d/a.pdf";
                       CSave "/d/.temp_opt_a.pdf_7_42.pdf"
                         (mkSaveOptions false 3 true true)]).
  { change w' with (snd (Ok out, w')). rewrite <- Hrun. vm_compute. reflexivity. }
  exact Hdirect.
Defined.

(** ** The temporary file *)

#[local] Instance same_locks_preorder : PreOrder same_locks.
Proof.
  split.
  - intros w. reflexivity.
  - intros a b c Hab Hbc. unfold same_locks in *. congruence.
Qed.

#[local] Instance same_locks_frame_preorder : PreOrder same_locks_frame.
Proof.
  split.
  - intros fr. unfold same_locks_frame. reflexivity.
  - intros a b c Hab Hbc. unfold same_locks_frame in *. etransitivity; eassumption.
Qed.

Lemma open_same_locks (q : string) : preserves same_locks (Fitz.open q).
Proof.
  intros w r w'. unfold Fitz.open. destruct (negb _); [intros [= _ <-]; reflexivity|].
  cbn [open_answers log_call].
  destruct (open_answers w) as [|[e|d] rest]; intros [= _ <-]; reflexivity.
Qed.

Lemma save_same_locks (d : Document) (q : string) (o : SaveOptions) :
  preserves same_locks (Fitz.save d q o).
Proof.
  intros w r w'. unfold Fitz.save. intros H.
  destruct (doc_closed d); [injection H as _ <-; reflexivity|].
  cbn [save_answers log_call] in H.
  destruct (save_answers w) as [|a rest]; [injection H as _ <-; reflexivity|].
  destruct (sa_written a) as [bytes|].
  - destruct (Os.entry_locked _ _); [injection H as _ <-; reflexivity|].
    destruct (sa_raises a); injection H as _ <-; reflexivity.
  - destruct (sa_raises a); injection H as _ <-; reflexivity.
Qed.

Lemma liftW_same_locks {A} (m : M World A) :
  preserves same_locks m → preserves same_locks_frame (liftW m).
Proof. apply preserves_liftW. intros [w res] w' H. exact H. Qed.

Lemma set_result_same_locks (f : FileOutcome → FileOutcome) :
  preserves same_locks_frame (set_result f).
Proof. intros fr r fr' [= _ <-]. reflexivity. Qed.

Lemma exists_same_locks (q : string) : preserves same_locks (Os.exists_ q).
Proof. apply preserves_gets, _. Qed.

Lemma last_resort_same_locks (q temp : string) :
  preserves same_locks (call_page_by_page_recovery [q; temp]).
Proof. intros w r w'. rewrite last_resort_call. intros [= _ <-]. reflexivity. Qed.

#[local] Hint Resolve open_same_locks save_same_locks liftW_same_locks
  set_result_same_locks exists_same_locks last_resort_same_locks : pres.

Lemma prepare_same_locks (p temp : string) (params : Params) (rm : bool)
    (fr fr' : OptFrame) (r : Res bool) :
  repair_not_entered rm (of_world fr) →
  Os.file_exists p (of_world fr) = true →
  prepare p temp params rm fr = (r, fr') →
  locked (of_world fr') = locked (of_world fr).
Proof.
  intros Hrep Hex. unfold prepare. unfold bind at 1.
  assert (Hopen_locks : ∀ r0 fr0, open_document p rm fr = (r0, fr0) →
                                  locked (of_world fr0) = locked (of_world fr)).
  { destruct fr as [w res]. cbn [of_world] in *. intros r0 fr0.
    unfold open_document, try_except, liftW.
    cbn [get_world put_world OptFrame_HasWorld of_world of_result].
    destruct (Fitz.open p w) as [[doc|e] w1] eqn:Hopen.
    - intros [= _ <-]. exact (open_same_locks _ _ _ _ Hopen).
    - destruct Hrep as [-> | (d & rest & Hans)].
      + intros [= _ <-]. exact (open_same_locks _ _ _ _ Hopen).
      + exfalso. unfold Fitz.open in Hopen.
        replace (Os.file_exists p (log_call (COpen p) w)) with true in Hopen
          by (symmetry; exact Hex).
        cbn [negb open_answers log_call] in Hopen. rewrite Hans in Hopen. discriminate. }
  destruct (open_document p rm fr) as [[doc|e] fr1] eqn:Hopen.
  - intros Hrest. rewrite <- (Hopen_locks _ _ eq_refl).
    revert Hrest. generalize fr1 r fr'.
    change (preserves same_locks_frame
              (if is_encrypted doc
               then Fitz.close doc >> set_result (with_error "PDF is encrypted") >> ret false
               else
                 let* pdf_document := save_document p temp params rm doc in
                 try_pass (Fitz.close pdf_document) >>
                 (let* there := liftW (Os.exists_ temp) in
                  if negb there
                  then raise (mkExn PlainException
                                ("Temporary optimized file was not created: " +:+ temp))
                  else ret true))).
    unfold save_document.
    repeat (first [pres_step | solve [auto with pres]]).
  - intros [= _ <-]. exact (Hopen_locks _ _ eq_refl).
Qed.

(** After the [return] of line 195 no file has changed (repair pipeline not
    entered). *)
Lemma prepare_false_fs (p temp : string) (params : Params) (rm : bool)
    (fr fr' : OptFrame) :
  repair_not_entered rm (of_world fr) →
  Os.file_exists p (of_world fr) = true →
  prepare p temp params rm fr = (Ok false, fr') →
  fs (of_world fr') = fs (of_world fr).
Proof.
  intros Hrep Hex H. unfold prepare in H.
  apply bind_Ok_inv in H as (doc & fr1 & Hopen & H).
  rewrite <- (open_document_fs p rm fr fr1 _ Hrep Hex Hopen).
  destruct (is_encrypted doc).
  - apply bind_Ok_inv in H as (d' & fr2 & Hclose & H).
    apply bind_Ok_inv in H as ([] & fr3 & Hset & H).
    injection H as <-.
    unfold Fitz.close, raise, ret in Hclose.
    destruct (doc_closed doc); [discriminate|]. injection Hclose as _ <-.
    injection Hset as <-. reflexivity.
  - apply bind_Ok_inv in H as (doc' & fr2 & _ & H).
    apply bind_Ok_inv in H as ([] & fr3 & _ & H).
    apply bind_Ok_inv in H as (there & fr4 & _ & H).
    destruct there; discriminate.
Qed.

(** The handler removes the temporary file when it can. *)
Lemma on_error_cleans (temp : string) (e : Exn) (fr : OptFrame) :
  Os.entry_locked temp (of_world fr) = false →
  ∃ w', on_error temp e fr
        = (Ok tt, mkOptFrame w' (with_error (str_of_exn e) (of_result fr)))
        ∧ fs w' !! temp = None.
Proof.
  destruct fr as [w res]. cbn [of_world of_result]. intros Hl.
  unfold on_error, bind, set_result, modify, try_except, liftW, Os.exists_, gets.
  cbn [get_world put_world OptFrame_HasWorld of_world of_result].
  destruct (Os.file_exists temp w) eqn:Hex;
    cbn [get_world put_world OptFrame_HasWorld of_world of_result].
  - unfold Os.remove. unfold Os.file_exists in Hex.
    apply bool_decide_eq_true in Hex as [tb Htb]. rewrite Htb, Hl.
    eexists. split; [reflexivity|]. cbn. apply lookup_delete_eq.
  - exists w. split; [reflexivity|].
    unfold Os.file_exists in Hex. apply bool_decide_eq_false in Hex.
    destruct (fs w !! temp) eqn:Hl'; [exfalso; apply Hex; eauto | reflexivity].
Qed.



(** ** The file is never lost *)

#[local] Instance still_there_preorder (p : string) : PreOrder (still_there p).
Proof.
  split.
  - intros w H. exact H.
  - intros a b c Hab Hbc H. apply Hbc, Hab, H.
Qed.

#[local] Instance still_there_frame_preorder (p : string) :
  PreOrder (still_there_frame p).
Proof.
  split.
  - intros fr. unfold still_there_frame. reflexivity.
  - intros a b c Hab Hbc. unfold still_there_frame in *. etransitivity; eassumption.
Qed.

#[local] Instance still_there_rec_preorder (p : string) : PreOrder (still_there_rec p).
Proof.
  split.
  - intros fr. split; reflexivity.
  - intros a b c [H1 H2] [H3 H4]. split; [congruence | etransitivity; eassumption].
Qed.

Lemma still_there_same_fs (p : string) (w w' : World) :
  fs w' = fs w → still_there p w w'.
Proof. intros H Hs. now rewrite H. Qed.

Lemma still_there_insert (p q : string) (bytes : string) (w : World) :
  still_there p w (set_fs (<[q := bytes]>) w).
Proof.
  intros Hs. cbn. destruct (decide (q = p)) as [->|Hne].
  - rewrite lookup_insert_eq. eauto.
  - now rewrite lookup_insert_ne.
Qed.

Lemma open_still_there (p q : string) : preserves (still_there p) (Fitz.open q).
Proof. intros w r w' H. apply still_there_same_fs, (open_fs _ _ _ _ H). Qed.

Lemma open_new_still_there (p : string) : preserves (still_there p) Fitz.open_new.
Proof. intros w r w' [= _ <-]. now apply still_there_same_fs. Qed.

Lemma insert_pdf_still_there (p : string) (dst src : Document) (n : N) :
  preserves (still_there p) (Fitz.insert_pdf dst src n).
Proof.
  intros w r w'. unfold Fitz.insert_pdf.
  destruct (doc_closed dst || doc_closed src);
    [intros [= _ <-]; now apply still_there_same_fs|].
  cbn [insert_answers log_call].
  destruct (insert_answers w) as [|[e|] rest]; intros [= _ <-];
    now apply still_there_same_fs.
Qed.

Lemma save_still_there (p q : string) (d : Document) (o : SaveOptions) :
  preserves (still_there p) (Fitz.save d q o).
Proof.
  intros w r w'. unfold Fitz.save. intros H.
  destruct (doc_closed d); [injection H as _ <-; now apply still_there_same_fs|].
  cbn [save_answers log_call] in H.
  destruct (save_answers w) as [|a rest];
    [injection H as _ <-; now apply still_there_same_fs|].
  destruct (sa_written a) as [bytes|].
  - destruct (Os.entry_locked _ _);
      [injection H as _ <-; now apply still_there_same_fs|].
    destruct (sa_raises a); injection H as _ <-; intros Hs; cbn;
      (destruct (decide (q = p)) as [->|Hne];
       [rewrite lookup_insert_eq; eauto | now rewrite lookup_insert_ne]).
  - destruct (sa_raises a); injection H as _ <-; now apply still_there_same_fs.
Qed.

Lemma exists_still_there (p q : string) : preserves (still_there p) (Os.exists_ q).
Proof. apply preserves_gets, _. Qed.

Lemma getsize_still_there (p q : string) : preserves (still_there p) (Os.getsize q).
Proof.
  intros w r w'. unfold Os.getsize.
  destruct (fs w !! q); intros [= _ <-]; reflexivity.
Qed.

Lemma copy2_still_there (p src dst : string) : preserves (still_there p) (Os.copy2 src dst).
Proof.
  intros w r w'. unfold Os.copy2.
  destruct (fs w !! src) as [bytes|]; [|intros [= _ <-]; reflexivity].
  destruct (_ || _); intros [= _ <-]; [reflexivity | apply still_there_insert].
Qed.

Lemma rename_still_there (p src dst : string) :
  src ≠ p → preserves (still_there p) (Os.rename src dst).
Proof.
  intros Hne w r w'. unfold Os.rename.
  destruct (fs w !! src) as [bytes|]; [|intros [= _ <-]; reflexivity].
  destruct (_ || _); intros [= _ <-]; [reflexivity|].
  intros Hs. cbn. destruct (decide (dst = p)) as [->|Hd].
  - rewrite lookup_insert_eq. eauto.
  - rewrite lookup_insert_ne by exact Hd. now rewrite lookup_delete_ne.
Qed.

Lemma remove_still_there (p q : string) :
  q ≠ p → preserves (still_there p) (Os.remove q).
Proof.
  intros Hne w r w' H Hs. now rewrite (remove_fs_other q p w w' r H Hne).
Qed.

Lemma copy_pages_still_there (p : string) (src new_doc : Document) (page_nums : list N) :
  preserves (still_there p) (copy_pages src new_doc page_nums).
Proof.
  revert new_doc. induction page_nums as [|n rest IH]; intros new_doc; cbn [copy_pages].
  - apply preserves_ret, _.
  - apply preserves_bind; [apply _ | | intros d; apply IH].
    apply preserves_try_except; [apply _ | apply insert_pdf_still_there | intros e].
    apply preserves_ret, _.
Qed.

Lemma liftW_still_there_rec {A} (p : string) (m : M World A) :
  preserves (still_there p) m → preserves (still_there_rec p) (liftW m).
Proof.
  apply preserves_liftW. intros [w t s] w' H. split; [reflexivity | exact H].
Qed.

Lemma set_src_doc_still_there_rec (p : string) (d : option Document) :
  preserves (still_there_rec p) (set_src_doc d).
Proof. intros fr r fr' [= _ <-]. split; reflexivity. Qed.

#[local] Hint Resolve open_still_there open_new_still_there save_still_there
  exists_still_there getsize_still_there copy2_still_there copy_pages_still_there
  liftW_still_there_rec set_src_doc_still_there_rec : pres.

Lemma close_src_doc_still_there_rec (p : string) :
  preserves (still_there_rec p) close_src_doc.
Proof.
  unfold close_src_doc, Fitz.truthy.
  repeat (first [pres_step | solve [auto with pres]]).
Qed.

Lemma rebuild_still_there_rec (p name : string) :
  preserves (still_there_rec p) (rebuild p name).
Proof.
  unfold rebuild.
  apply preserves_try_finally; [apply _ | | apply close_src_doc_still_there_rec].
  repeat (first [pres_step | solve [auto with pres]
                | apply close_src_doc_still_there_rec]).
Qed.

Lemma install_repaired_still_there_rec (p name : string) :
  preserves (still_there_rec p) (install_repaired p name).
Proof.
  unfold install_repaired.
  repeat (first [pres_step | solve [auto with pres]
                | apply liftW_still_there_rec, rename_still_there,
                    append_suffix_ne; discriminate]).
Qed.

(** The direct open changes no file. *)
Lemma direct_open_fs (p : string) (w w' : World) (r : Res (option Document)) :
  direct_open p w = (r, w') → fs w' = fs w.
Proof.
  unfold direct_open, try_except, bind.
  destruct (Fitz.open p w) as [[d|e] w1] eqn:Hopen;
    pose proof (open_fs _ _ _ _ Hopen) as Hfs.
  - destruct (is_pdf d && (0 <? page_count d)); [intros [= _ <-]; exact Hfs|].
    unfold Fitz.close, raise, ret.
    destruct (doc_closed d); intros [= _ <-]; exact Hfs.
  - intros [= _ <-]. exact Hfs.
Qed.

(** The repair pipeline may replace the file at [p]; it never removes it. *)
Lemma recovery_still_there (p : string) : preserves (still_there p) (page_by_page_recovery p).
Proof.
  intros w r w' Hrun Hsome. revert Hrun.
  unfold page_by_page_recovery, bind at 1.
  destruct (direct_open p w) as [[[d|]|e] w0] eqn:Hd;
    pose proof (direct_open_fs _ _ _ _ Hd) as Hfs0.
  - intros [= _ <-]. now rewrite Hfs0.
  - assert (Hsome0 : is_Some (fs w0 !! p)) by now rewrite Hfs0.
    unfold bind at 1, with_frame, reconstruct, try_finally, try_except.
    unfold bind at 1, liftW at 1, Os.named_temporary_file.
    cbn [get_world put_world RecFrame_HasWorld rf_world rf_temp_file rf_src_doc].
    destruct (tmp_names w0) as [|n rest].
    { cbn. intros [= _ <-]. exact Hsome0. }
    destruct (Os.file_exists (n +:+ ".pdf") w0 || Os.entry_locked (n +:+ ".pdf") w0)
      eqn:Hbusy.
    { cbn. intros [= _ <-]. exact Hsome0. }
    apply orb_false_iff in Hbusy as [Hfree _].
    assert (Hne : n +:+ ".pdf" ≠ p).
    { intros Heq. unfold Os.file_exists in Hfree.
      apply bool_decide_eq_false in Hfree. apply Hfree. now rewrite Heq. }
    unfold bind at 1, set_temp_file, modify.
    cbn [get_world put_world RecFrame_HasWorld rf_world rf_temp_file rf_src_doc].
    set (w1 := set_fs (<[n +:+ ".pdf" := ""]>) (set_tmp_names rest w0)).
    assert (Hsome1 : is_Some (fs w1 !! p)).
    { subst w1. cbn. now rewrite lookup_insert_ne. }
    destruct ((set_src_doc None >> rebuild p (n +:+ ".pdf")
               >> install_repaired p (n +:+ ".pdf"))
                (mkRecFrame w1 (Some (n +:+ ".pdf")) None)) as [r1 fr2] eqn:Hrest.
    assert (Hkeep : still_there_rec p (mkRecFrame w1 (Some (n +:+ ".pdf")) None) fr2).
    { assert (Hp : preserves (still_there_rec p)
                     (set_src_doc None >> rebuild p (n +:+ ".pdf")
                      >> install_repaired p (n +:+ ".pdf"))).
      { apply preserves_bind; [apply _ | auto with pres | intros _].
        apply preserves_bind; [apply _ | apply rebuild_still_there_rec | intros _].
        apply install_repaired_still_there_rec. }
      apply (Hp _ _ _ Hrest). }
    destruct Hkeep as [Htf Hst]. cbn [rf_temp_file rf_world] in Htf, Hst.
    specialize (Hst Hsome1).
    assert (Hclean : ∀ fr3 rc, cleanup_temp_file fr2 = (rc, fr3) →
                               is_Some (fs (rf_world fr3) !! p)).
    { destruct fr2 as [w2 t2 s2]. cbn [rf_temp_file rf_world] in Htf, Hst. subst t2.
      intros fr3 rc.
      unfold cleanup_temp_file, bind, temp_file_name, liftW, Os.exists_, gets, try_pass.
      cbn [get_world put_world RecFrame_HasWorld rf_world rf_temp_file rf_src_doc].
      destruct (Os.file_exists (n +:+ ".pdf") w2); [|intros [= _ <-]; exact Hst].
      cbn [get_world put_world RecFrame_HasWorld rf_world rf_temp_file rf_src_doc].
      destruct (Os.remove (n +:+ ".pdf") w2) as [rr w3] eqn:Hrm.
      intros [= _ <-]. cbn [rf_world].
      now rewrite (remove_fs_other _ p _ _ _ Hrm Hne). }
    destruct r1 as [x|e].
    + destruct (cleanup_temp_file fr2) as [[[]|e] fr3];
        intros [= _ <-]; exact (Hclean _ _ eq_refl).
    + change (ret (S:=RecFrame) (@None Document) fr2) with (Ok (@None Document), fr2).
      cbv iota beta.
      destruct (cleanup_temp_file fr2) as [[[]|e'] fr3];
        intros [= _ <-]; exact (Hclean _ _ eq_refl).
  - intros [= _ <-]. now rewrite Hfs0.
Qed.

Lemma getsize_world (p : string) (w w' : World) (r : Res N) :
  Os.getsize p w = (r, w') → w' = w.
Proof. unfold Os.getsize. destruct (fs w !! p); now intros [= _ <-]. Qed.

Lemma liftW_still_there_frame {A} (p : string) (m : M World A) :
  preserves (still_there p) m → preserves (still_there_frame p) (liftW m).
Proof. apply preserves_liftW. intros [w res] w' H. exact H. Qed.

Lemma set_result_still_there_frame (p : string) (f : FileOutcome → FileOutcome) :
  preserves (still_there_frame p) (set_result f).
Proof. intros fr r fr' [= _ <-]. unfold still_there_frame. reflexivity. Qed.

Lemma call_recovery_still_there (p : string) (args : list string) :
  hd_error args = Some p →
  preserves (still_there p) (call_page_by_page_recovery args).
Proof.
  destruct args as [|a [|b rest]]; cbn; intros [= ->].
  - apply recovery_still_there.
  - apply preserves_raise, _.
Qed.

#[local] Hint Resolve liftW_still_there_frame set_result_still_there_frame
  recovery_still_there : pres.

Lemma try_body_still_there (p temp : string) (params : Params) (rm : bool) (orig : N) :
  temp ≠ p →
  preserves (still_there_frame p)
    (try_except (try_body p temp params rm orig) (on_error temp)).
Proof.
  intros Hne.
  unfold try_body, prepare, open_document, save_document, commit, on_error.
  repeat (first [pres_step
                | solve [auto with pres]
                | apply liftW_still_there_frame, call_recovery_still_there; reflexivity
                | apply liftW_still_there_frame, rename_still_there; exact Hne
                | apply liftW_still_there_frame, remove_still_there; exact Hne]).
Qed.

(** X13. [optimize_pdf] never leaves its path without a file, in any mode:
    whatever the engine and the file system do, and whether it ends in
    success, failure or a replacement by the repair pipeline, a file that was
    at the path on entry has a file at the path on return. *)
Theorem X13_file_never_lost (p : string) (params : Params) (rm : bool) (w w' : World)
    (r : Res FileOutcome) :
  is_Some (fs w !! p) →
  optimize_pdf p params rm w = (r, w') →
  is_Some (fs w' !! p).
Proof.
  intros Hsome. unfold optimize_pdf. unfold bind at 1.
  destruct (Os.getsize p w) as [[orig|e] w0] eqn:Hsize;
    pose proof (getsize_world _ _ _ _ Hsize) as ->.
  2:{ intros [= _ <-]. exact Hsome. }
  unfold bind at 1, gets. unfold bind at 1, with_frame.
  destruct (try_except (try_body p (temp_path_for p w) params rm orig)
              (on_error (temp_path_for p w)) (mkOptFrame w (initial_result orig)))
    as [rb frb] eqn:Hbody.
  pose proof (try_body_still_there p (temp_path_for p w) params rm orig
                (temp_path_ne p w) _ _ _ Hbody) as Hst.
  unfold still_there_frame, still_there in Hst. cbn [of_world] in Hst.
  destruct rb as [[]|e]; intros [= _ <-]; apply Hst, Hsome.
Qed.

Lemma X13_file_never_lost_witness :
  ∃ r w',
    optimize_pdf "/d/a.pdf" (params_for 1) true Examples.repairing_world = (r, w')
    ∧ is_Some (fs w' !! "/d/a.pdf").
Proof.
  destruct (optimize_pdf "/d/a.pdf" (params_for 1) true Examples.repairing_world)
    as [r w'] eqn:Hrun.
  exists r, w'. split; [reflexivity|].
  apply (X13_file_never_lost "/d/a.pdf" (params_for 1) true
           Examples.repairing_world w' r); [|exact Hrun].
  exists "0123456789". vm_compute. reflexivity.
Defined.

(** ** The outcome of [optimize_pdf] *)

#[local] Instance same_error_preorder : PreOrder same_error.
Proof.
  split.
  - intros fr. reflexivity.
  - intros a b c Hab Hbc. unfold same_error in *. congruence.
Qed.

Lemma liftW_same_error {A} (m : M World A) : preserves same_error (liftW m).
Proof.
  intros [w res] r fr'. unfold liftW.
  cbn [get_world put_world OptFrame_HasWorld of_world of_result].
  destruct (m w) as [r1 w1]. intros [= _ <-]. reflexivity.
Qed.

Lemma set_repaired_same_error (b : bool) :
  preserves same_error (set_result (with_repaired b)).
Proof. intros fr r fr' [= _ <-]. reflexivity. Qed.

#[local] Hint Resolve liftW_same_error set_repaired_same_error : pres.

Lemma open_document_same_error (p : string) (rm : bool) :
  preserves same_error (open_document p rm).
Proof.
  unfold open_document.
  repeat (first [pres_step | solve [auto with pres]]).
Qed.

Lemma save_document_same_error (p temp : string) (params : Params) (rm : bool)
    (doc : Document) :
  preserves same_error (save_document p temp params rm doc).
Proof.
  unfold save_document.
  repeat (first [pres_step | solve [auto with pres]]).
Qed.

(** Up to the size gate [error] is written once, on the way out of line 195. *)
Lemma prepare_error (p temp : string) (params : Params) (rm : bool)
    (fr fr' : OptFrame) (r : Res bool) :
  prepare p temp params rm fr = (r, fr') →
  match r with
  | Ok false => error (of_result fr') = Some "PDF is encrypted"
  | _ => error (of_result fr') = error (of_result fr)
  end.
Proof.
  unfold prepare. unfold bind at 1.
  destruct (open_document p rm fr) as [[doc|e] fr1] eqn:Hopen.
  2:{ intros [= <- <-]. exact (open_document_same_error _ _ _ _ _ Hopen). }
  pose proof (open_document_same_error _ _ _ _ _ Hopen) as H1. unfold same_error in H1.
  rewrite <- H1. clear H1 Hopen.
  destruct (is_encrypted doc).
  - unfold bind at 1.
    destruct (Fitz.close doc fr1) as [[d'|e] fr2] eqn:Hclose.
    + pose proof (close_preserves same_error doc _ _ _ Hclose) as H2.
      intros [= <- <-]. reflexivity.
    + pose proof (close_preserves same_error doc _ _ _ Hclose) as H2.
      intros [= <- <-]. exact H2.
  - unfold bind at 1.
    destruct (save_document p temp params rm doc fr1) as [[doc'|e] fr2] eqn:Hsave.
    2:{ intros [= <- <-]. exact (save_document_same_error _ _ _ _ _ _ _ _ Hsave). }
    pose proof (save_document_same_error _ _ _ _ _ _ _ _ Hsave) as H2.
    unfold same_error in H2. rewrite <- H2. clear H2 Hsave.
    unfold bind at 1.
    destruct (try_pass (Fitz.close doc') fr2) as [[[]|e] fr3] eqn:Hclose.
    2:{ unfold try_pass in Hclose. destruct (Fitz.close doc' fr2). discriminate. }
    assert (H3 : same_error fr2 fr3).
    { revert Hclose. apply preserves_try_pass, close_preserves, _. }
    unfold same_error in H3. rewrite <- H3. clear H3 Hclose.
    unfold bind at 1, liftW, Os.exists_, gets. destruct fr3 as [w3 res3].
    cbn [get_world put_world OptFrame_HasWorld of_world of_result].
    destruct (Os.file_exists temp w3); cbn [negb]; intros [= <- <-]; reflexivity.
Qed.

Lemma optimize_pdf_consistent (p : string) (params : Params) (rm : bool) (w w' : World)
    (out : FileOutcome) :
  optimize_pdf p params rm w = (Ok out, w') → consistent_outcome out.
Proof.
  intros Hrun.
  destruct (fs w !! p) as [bytes|] eqn:Hfs.
  2:{ exfalso. revert Hrun. unfold optimize_pdf. unfold bind at 1.
      unfold Os.getsize. rewrite Hfs. discriminate. }
  destruct (prepare p (temp_path_for p w) params rm
              (mkOptFrame w (initial_result (Os.size_of bytes))))
    as [r1 [w1 res1]] eqn:Hprep.
  destruct (initial_verdict (mkOptFrame w (initial_result (Os.size_of bytes)))
              (mkOptFrame w1 res1) (Os.size_of bytes) eq_refl
              (prepare_same_verdict _ _ _ _ _ _ _ Hprep)) as (Hs & Ho & Hn).
  pose proof (prepare_error _ _ _ _ _ _ _ Hprep) as He.
  cbn [of_result initial_result error] in Hs, Ho, Hn, He.
  destruct (optimize_pdf_after_prepare p params rm w bytes r1 w1 res1 Hfs Hprep)
    as (out' & w'' & Hrun' & Hout).
  rewrite Hrun in Hrun'. injection Hrun' as <- <-.
  unfold consistent_outcome.
  destruct r1 as [[|]|e].
  - rewrite commit_cases in Hout.
    destruct (fs w1 !! temp_path_for p w) as [tb|].
    + destruct (Os.size_of tb <? Os.size_of bytes) eqn:Hlt.
      * apply N.ltb_lt in Hlt.
        destruct (Os.entry_locked _ _ || Os.entry_locked _ _);
          destruct Hout as [-> _]; cbn; rewrite ?Hs, ?Ho, ?Hn, ?He;
          repeat split; try congruence; try lia.
      * destruct (Os.entry_locked _ _); destruct Hout as [-> _]; cbn;
          rewrite ?Hs, ?Ho, ?Hn, ?He; repeat split; try congruence; try lia.
    + destruct Hout as [-> _]. cbn. rewrite ?Hs, ?Ho, ?Hn.
      repeat split; try congruence; try lia.
  - destruct Hout as [-> _]. rewrite Hs, Ho, Hn, He.
    repeat split; try congruence; try lia.
  - destruct Hout as [-> _]. cbn. rewrite ?Hs, ?Ho, ?Hn.
    repeat split; try congruence; try lia.
Qed.

(** X14. Every outcome [optimize_pdf] returns is consistent: it carries an
    error message exactly when it is not a success, its new size is never
    larger than its original size, and the two sizes are equal unless it is
    a success. *)
Theorem X14_outcome_is_consistent (p : string) (params : Params) (rm : bool)
    (w w' : World) (out : FileOutcome) :
  optimize_pdf p params rm w = (Ok out, w') →
  (success out = true ↔ error out = None)
  ∧ (new_size out <= original_size out)%N
  ∧ (success out = false → new_size out = original_size out).
Proof. apply optimize_pdf_consistent. Qed.

Lemma X14_outcome_is_consistent_witness :
  ∃ out w',
    optimize_pdf "/d/a.pdf" (params_for 1) false Examples.shrinking_world = (Ok out, w')
    ∧ (success out = true ↔ error out = None)
    ∧ (new_size out <= original_size out)%N
    ∧ (success out = false → new_size out = original_size out).
Proof.
  destruct (optimize_pdf "/d/a.pdf" (params_for 1) false Examples.shrinking_world)
    as [[out|e] w'] eqn:Hrun; [|vm_compute in Hrun; discriminate].
  exists out, w'. split; [reflexivity|].
  exact (X14_outcome_is_consistent "/d/a.pdf" (params_for 1) false
           Examples.shrinking_world w' out Hrun).
Defined.

(** ** The page copy of the repair pipeline *)

Lemma insert_pdf_cases (dst src : Document) (n : N) (w : World) :
  ∃ r w', Fitz.insert_pdf dst src n w = (r, w')
    ∧ fs w' = fs w
    ∧ engine_log w' = (engine_log w ++ [CInsert n])%list
    ∧ match r with
      | Ok d =>
          dd_pages (doc_data d)
          = (dd_pages (doc_data dst)
             ++ [default "" (dd_pages (doc_data src) !! N.to_nat n)])%list
          ∧ doc_closed d = doc_closed dst
      | Raise _ => True
      end.
Proof.
  unfold Fitz.insert_pdf.
  destruct (doc_closed dst || doc_closed src); [eauto 10|].
  cbn [insert_answers log_call].
  destruct (insert_answers w) as [|[e|] rest]; eauto 10.
Qed.

(** The loop of lines 375-380 for any list of page numbers. *)
Lemma copy_pages_spec (src : Document) (page_nums : list N) :
  ∀ (new_doc : Document) (w : World),
  ∃ d w', copy_pages src new_doc page_nums w = (Ok d, w')
    ∧ fs w' = fs w
    ∧ engine_log w' = (engine_log w ++ map CInsert page_nums)%list
    ∧ ∃ kept,
        dd_pages (doc_data d) = (dd_pages (doc_data new_doc) ++ kept)%list
        ∧ sublist kept
            (map (λ n, default "" (dd_pages (doc_data src) !! N.to_nat n)) page_nums).
Proof.
  induction page_nums as [|n rest IH]; intros new_doc w.
  - exists new_doc, w. cbn. rewrite !app_nil_r. repeat split.
    exists []. rewrite app_nil_r. split; [reflexivity|constructor].
  - cbn [copy_pages]. unfold bind at 1, try_except.
    destruct (insert_pdf_cases new_doc src n w) as (r & w1 & Hins & Hfs & Hlog & Hr).
    rewrite Hins.
    destruct r as [d1|e].
    + destruct Hr as [Hpages _].
      destruct (IH d1 w1) as (d & w' & Hrun & Hfs' & Hlog' & kept & Hd & Hsub).
      exists d, w'. rewrite Hrun. repeat split.
      * congruence.
      * rewrite Hlog', Hlog. cbn [map]. now rewrite <- app_assoc.
      * exists (default "" (dd_pages (doc_data src) !! N.to_nat n) :: kept). split.
        -- rewrite Hd, Hpages. now rewrite <- app_assoc.
        -- cbn [map]. now constructor.
    + cbn [ret].
      destruct (IH new_doc w1) as (d & w' & Hrun & Hfs' & Hlog' & kept & Hd & Hsub).
      exists d, w'. rewrite Hrun. repeat split.
      * congruence.
      * rewrite Hlog', Hlog. cbn [map]. now rewrite <- app_assoc.
      * exists kept. split; [exact Hd|]. cbn [map]. now constructor.
Qed.

Lemma pages_of_range (pages : list string) :
  map (λ n, default "" (pages !! N.to_nat n)) (range (N.of_nat (length pages))) = pages.
Proof.
  unfold range. rewrite Nat2N.id, map_map.
  apply list_eq. intros i.
  change (map ?f ?l) with (f <$> l). rewrite list_lookup_fmap.
  destruct (decide (i < length pages)%nat) as [Hlt|Hge].
  - rewrite lookup_seq_lt by exact Hlt. cbn. rewrite Nat2N.id.
    destruct (lookup_lt_is_Some_2 pages i Hlt) as [x Hx]. now rewrite Hx.
  - rewrite lookup_seq_ge by lia. cbn. symmetry. apply lookup_ge_None_2. lia.
Qed.

(** X15. The page copy of the repair pipeline never raises and never
    touches the file system: it asks the engine for every page of the source
    once, in order, and the pages of the rebuilt document are the pages it
    started with followed by pages of the source in their order, the pages
    whose copy failed left out. *)
Theorem X15_page_copy_skips_failures (src new_doc : Document) (w : World) :
  ∃ d w',
    copy_pages src new_doc (range (page_count src)) w = (Ok d, w')
    ∧ fs w' = fs w
    ∧ engine_log w' = (engine_log w ++ map CInsert (range (page_count src)))%list
    ∧ ∃ kept,
        dd_pages (doc_data d) = (dd_pages (doc_data new_doc) ++ kept)%list
        ∧ sublist kept (dd_pages (doc_data src)).
Proof.
  destruct (copy_pages_spec src (range (page_count src)) new_doc w)
    as (d & w' & Hrun & Hfs & Hlog & kept & Hd & Hsub).
  exists d, w'. repeat split; try assumption.
  exists kept. split; [exact Hd|].
  unfold page_count in Hsub. now rewrite pages_of_range in Hsub.
Qed.

(** The loop when no copy fails. *)
Lemma copy_pages_all (src : Document) (page_nums : list N) :
  doc_closed src = false →
  ∀ (new_doc : Document) (w : World) (rest : list (option Exn)),
  doc_closed new_doc = false →
  insert_answers w = (replicate (length page_nums) None ++ rest)%list →
  ∃ d w', copy_pages src new_doc page_nums w = (Ok d, w')
    ∧ insert_answers w' = rest
    ∧ doc_closed d = false
    ∧ dd_pages (doc_data d)
      = (dd_pages (doc_data new_doc)
         ++ map (λ n, default "" (dd_pages (doc_data src) !! N.to_nat n)) page_nums)%list.
Proof.
  intros Hsrc.
  induction page_nums as [|n more IH]; intros new_doc w rest Hnew Hans.
  - exists new_doc, w. cbn. rewrite app_nil_r. auto.
  - cbn [copy_pages]. unfold bind at 1, try_except, Fitz.insert_pdf.
    rewrite Hnew, Hsrc. cbn [orb insert_answers log_call]. rewrite Hans.
    cbn [length replicate app].
    edestruct (IH (mkDocument
                     (mkDocData
                        (dd_pages (doc_data new_doc)
                         ++ [default "" (dd_pages (doc_data src) !! N.to_nat n)])
                        (dd_is_pdf (doc_data new_doc))
                        (dd_is_encrypted (doc_data new_doc)))
                     false)
                  (set_insert_answers (replicate (length more) None ++ rest)
                     (log_call (CInsert n) w)) rest eq_refl eq_refl)
      as (d & w' & Hrun & Hrest & Hclosed & Hd).
    exists d, w'. rewrite Hrun. repeat split; try assumption.
    rewrite Hd. cbn [dd_pages doc_data map]. now rewrite <- app_assoc.
Qed.

(** X16. When both documents are open and the engine fails on no page, the
    page copy is complete: the rebuilt document holds the pages it started
    with followed by all pages of the source, in order. *)
Theorem X16_page_copy_complete (src new_doc : Document) (w : World)
    (rest : list (option Exn)) :
  doc_closed src = false →
  doc_closed new_doc = false →
  insert_answers w = (replicate (length (dd_pages (doc_data src))) None ++ rest)%list →
  ∃ d w',
    copy_pages src new_doc (range (page_count src)) w = (Ok d, w')
    ∧ dd_pages (doc_data d)
      = (dd_pages (doc_data new_doc) ++ dd_pages (doc_data src))%list.
Proof.
  intros Hsrc Hnew Hans.
  destruct (copy_pages_all src (range (page_count src)) Hsrc new_doc w rest Hnew)
    as (d & w' & Hrun & _ & _ & Hd).
  - unfold range, page_count. now rewrite length_map, length_seq, Nat2N.id.
  - exists d, w'. split; [exact Hrun|].
    unfold page_count in Hd. now rewrite pages_of_range in Hd.
Qed.

Lemma X16_page_copy_complete_witness :
  ∃ d w',
    copy_pages (mkDocument Examples.two_pages false)
      (mkDocument (mkDocData [] true false) false)
      (range (page_count (mkDocument Examples.two_pages false)))
      (Examples.world_with [] []) = (Ok d, w')
    ∧ dd_pages (doc_data d) = ([] ++ ["page 1"; "page 2"])%list.
Proof.
  apply (X16_page_copy_complete (mkDocument Examples.two_pages false)
           (mkDocument (mkDocData [] true false) false)
           (Examples.world_with [] []) []); reflexivity.
Defined.

(** ** When the repair pipeline raises *)

Lemma recovery_raise_cases (p : string) (w w' : World) (e : Exn) :
  page_by_page_recovery p w = (Raise e, w') →
  exn_kind e = UnboundLocalError
  ∧ ∃ w1 e0 w2,
      direct_open p w = (Ok None, w1)
      ∧ Os.named_temporary_file ".pdf" w1 = (Raise e0, w2)
      ∧ w' = w2.
Proof.
  intros Hrun.
  destruct (direct_open_returns p w) as ([d|] & w1 & Hd).
  { revert Hrun. unfold page_by_page_recovery, bind at 1. rewrite Hd. discriminate. }
  destruct (Os.named_temporary_file ".pdf" w1) as [[name|e0] w2] eqn:Hn.
  { destruct (recovery_returns_with_temp_file p w w1 w2 name Hd Hn) as (r & w'' & Hok).
    rewrite Hok in Hrun. discriminate. }
  revert Hrun. unfold page_by_page_recovery, bind at 1. rewrite Hd.
  unfold bind at 1, with_frame, reconstruct, try_finally, try_except.
  unfold bind at 1, liftW at 1.
  cbn [get_world put_world RecFrame_HasWorld rf_world rf_temp_file rf_src_doc].
  rewrite Hn.
  cbn [ret get_world put_world RecFrame_HasWorld rf_world rf_temp_file rf_src_doc].
  unfold cleanup_temp_file, bind at 1, temp_file_name.
  cbn [get_world put_world RecFrame_HasWorld rf_world rf_temp_file rf_src_doc].
  intros [= <- <-]. split; [reflexivity|]. exists w1, e0, w2. auto.
Qed.



(** ** The scratch file of the repair pipeline *)

Lemma cleanup_temp_file_removes (fr fr' : RecFrame) (r : Res unit) (name : string) :
  rf_temp_file fr = Some name →
  cleanup_temp_file fr = (r, fr') →
  Os.entry_locked name (rf_world fr') = false →
  fs (rf_world fr') !! name = None.
Proof.
  destruct fr as [w t s]. cbn [rf_temp_file]. intros ->.
  unfold cleanup_temp_file, bind, temp_file_name, liftW, Os.exists_, gets, try_pass.
  cbn [get_world put_world RecFrame_HasWorld rf_world rf_temp_file rf_src_doc].
  destruct (Os.file_exists name w) eqn:Hex.
  - cbn [get_world put_world RecFrame_HasWorld rf_world rf_temp_file rf_src_doc].
    unfold Os.remove.
    destruct (fs w !! name) as [bytes|] eqn:Hfs.
    + destruct (Os.entry_locked name w) eqn:Hlock.
      * intros [= _ <-]. cbn [rf_world]. congruence.
      * intros [= _ <-] _. cbn [rf_world set_fs fs]. apply lookup_delete_eq.
    + intros [= _ <-] _. exact Hfs.
  - intros [= _ <-] _. cbn [rf_world].
    destruct (fs w !! name) as [bytes|] eqn:Hfs; [|reflexivity].
    rewrite (file_exists_Some _ _ _ Hfs) in Hex. discriminate.
Qed.

Lemma recovery_removes_temp_file (p : string) (w w1 w2 w' : World) (name : string)
    (r : Res (option Document)) :
  direct_open p w = (Ok None, w1) →
  Os.named_temporary_file ".pdf" w1 = (Ok name, w2) →
  page_by_page_recovery p w = (r, w') →
  Os.entry_locked name w' = false →
  fs w' !! name = None.
Proof.
  intros Hd Hn. unfold page_by_page_recovery, bind at 1. rewrite Hd.
  unfold bind at 1, with_frame, reconstruct, try_finally, try_except.
  unfold bind at 1, liftW at 1.
  cbn [get_world put_world RecFrame_HasWorld rf_world rf_temp_file rf_src_doc].
  rewrite Hn.
  unfold bind at 1, set_temp_file, modify.
  cbn [get_world put_world RecFrame_HasWorld rf_world rf_temp_file rf_src_doc].
  destruct ((set_src_doc None >> rebuild p name >> install_repaired p name)
              (mkRecFrame w2 (Some name) None)) as [r1 fr2] eqn:Hrest.
  assert (Hkeep : rf_temp_file fr2 = Some name).
  { assert (Hp : preserves keeps_temp_file
                   (set_src_doc None >> rebuild p name >> install_repaired p name)).
    { apply preserves_bind; [apply _ | auto with pres | intros _].
      apply preserves_bind; [apply _ | apply rebuild_keeps_temp_file | intros _].
      apply install_repaired_keeps_temp_file. }
    apply (Hp _ _ _ Hrest). }
  destruct r1 as [r1|e].
  - destruct (cleanup_temp_file fr2) as [[[]|e'] fr3] eqn:Hclean;
      pose proof (cleanup_temp_file_removes _ _ _ _ Hkeep Hclean) as Hgone;
      intros [= _ <-]; exact Hgone.
  - change (ret (S:=RecFrame) (@None Document) fr2) with (Ok (@None Document), fr2).
    cbv iota beta.
    destruct (cleanup_temp_file fr2) as [[[]|e'] fr3] eqn:Hclean;
      pose proof (cleanup_temp_file_removes _ _ _ _ Hkeep Hclean) as Hgone;
      intros [= _ <-]; exact Hgone.
Qed.

(** X18. The repair pipeline cleans up after itself: whatever happens after
    its temporary file was created, on return the file is gone, unless its
    entry is locked. *)
Theorem X18_recovery_removes_its_temp_file (p : string) (w w1 w2 w' : World)
    (name : string) (r : Res (option Document)) :
  direct_open p w = (Ok None, w1) →
  Os.named_temporary_file ".pdf" w1 = (Ok name, w2) →
  page_by_page_recovery p w = (r, w') →
  Os.entry_locked name w' = false →
  fs w' !! name = None.
Proof. apply recovery_removes_temp_file. Qed.

Lemma X18_recovery_removes_its_temp_file_witness :
  let w := Examples.world_with
             [inl Examples.broken; inr Examples.two_pages; inr Examples.two_pages;
              inr Examples.two_pages]
             [mkSaveAnswer (Some "0123456789ABCDEF") None] in
  ∃ r w',
    page_by_page_recovery "/d/a.pdf" w = (r, w')
    ∧ fs w' !! "/tmp/tmpk3x9.pdf" = None.
Proof.
  intros w.
  destruct (page_by_page_recovery "/d/a.pdf" w) as [r w'] eqn:Hrun.
  exists r, w'. split; [reflexivity|].
  apply (X18_recovery_removes_its_temp_file "/d/a.pdf" w
           (snd (direct_open "/d/a.pdf" w))
           (snd (Os.named_temporary_file ".pdf" (snd (direct_open "/d/a.pdf" w))))
           w' "/tmp/tmpk3x9.pdf" r).
  - vm_compute. reflexivity.
  - vm_compute. reflexivity.
  - exact Hrun.
  - apply (f_equal snd) in Hrun. cbn [snd] in Hrun. subst w'. vm_compute. reflexivity.
Defined.

(** ** The range of the reduction and the size filter, on examples *)


